(** * Pencil-sketch filter (image.py): a shallow embedding and its properties

    The program is one class, [PencilSketch], with a constructor, two
    stages written in numpy ([dodge], [sharpen]) and the pipeline
    [__call__], which also calls two OpenCV routines ([cv2.GaussianBlur],
    [cv2.filter2D]).

    - uint8 samples are integers [Z] in [0, 255]; float64 values are Rocq's
      primitive IEEE-754 binary64 floats, so [inf] and [nan] behave as they
      do in numpy; the fused multiply-add of [np.dot], which the primitive
      floats do not have, is computed exactly on dyadic numbers and rounded
      once;
    - an image is a nested list, rows of pixels of channel samples
      (shape (H, W, C));
    - an exception is a value of [exn]; code that can raise returns [res];
    - the two OpenCV routines are not part of the repository: the pipeline
      takes them as parameters ([Section Pipeline]), and module [cv2] holds
      an executable reference model of their documented behaviour, used to
      instantiate the parameters;
    - module [Heap] re-runs the pipeline over a store of buffers, to talk
      about aliasing and in-place assignment. *)

From Stdlib Require Import ZArith Lia Floats Uint63.
From stdpp Require Import base option list gmap.

#[local] Set Warnings "-inexact-float".
#[local] Open Scope Z_scope.

(** ** Exceptions *)

Inductive exn : Set :=
| ValueError   (* numpy: shapes not aligned *)
| cv2_error.   (* OpenCV: failed assertion on the arguments *)

Inductive res (A : Type) : Type :=
| Ok (a : A)
| Raise (e : exn).
Arguments Ok {A} a.
Arguments Raise {A} e.

Definition res_bind {A B} (m : res A) (k : A -> res B) : res B :=
  match m with
  | Ok a => k a
  | Raise e => Raise e
  end.

Notation "'let*' x := m 'in' k" := (res_bind m (fun x => k))
  (at level 10, x name, m at level 100, k at level 200).

(** ** Arrays of rank 3 *)

Abbreviation arr A := (list (list (list A))).
Abbreviation ndarray := (arr Z).
Abbreviation kernel_t := (list (list Z)).

Definition map3 {A B} (f : A -> B) (a : arr A) : arr B :=
  fmap (M := list) (fmap (M := list) (fmap (M := list) f)) a.

Definition zip3 {A B C} (f : A -> B -> C) (a : arr A) (b : arr B) : arr C :=
  zip_with (zip_with (zip_with f)) a b.

(** Sample at row [y], column [x], channel [c]. *)
Definition at3 {A} (a : arr A) (y x c : nat) : option A :=
  a !! y ≫= fun row => row !! x ≫= fun px => px !! c.

Definition pixel_at {A} (a : arr A) (y x : nat) : option (list A) :=
  a !! y ≫= fun row => row !! x.

(** Shape (H, W, C). *)
Definition has_shape {A} (H W C : nat) (a : arr A) : Prop :=
  length a = H /\
  Forall (fun row => length row = W /\ Forall (fun px => length px = C) row) a.

Definition is_uint8 (v : Z) : Prop := 0 <= v <= 255.
Definition all_uint8 (a : ndarray) : Prop := Forall (Forall (Forall is_uint8)) a.

(** Every pixel holds one value three times. *)
Definition gray_pixel (px : list Z) : Prop := exists v, px = [v; v; v].
Definition channels_equal (a : ndarray) : Prop := Forall (Forall gray_pixel) a.

(** The H x W x 3 buffer with every sample equal to [v]. *)
Definition flat (H W : nat) (v : Z) : ndarray :=
  replicate H (replicate W [v; v; v]).

(** ** numpy scalar semantics *)

Module np.

(** A uint8 sample promoted to float64 (exact). *)
Definition float64 (v : Z) : float := PrimFloat.of_uint63 (Uint63.of_Z v).

(** The C conversion of a double to an integer: the fraction is dropped
    (truncation towards zero).  A finite double is [(-1)^s * m * 2^e]. *)
Definition trunc_SF (x : spec_float) : option Z :=
  match x with
  | S754_zero _ => Some 0
  | S754_finite s m e =>
      let a := if 0 <=? e then Z.shiftl (Zpos m) e
               else Z.shiftr (Zpos m) (- e) in
      Some (if s then - a else a)
  | S754_infinity _ | S754_nan => None
  end.

(** [x.astype('uint8')] on one element.  The integer part is reduced
    modulo 256.  The conversion of nan or an infinity is undefined in C;
    numpy on x86-64 and AArch64 stores 0, which is what is written here. *)
Definition astype_uint8 (x : float) : Z :=
  match trunc_SF (Prim2SF x) with
  | Some z => z mod 256
  | None => 0
  end.

(** [255 - a] on a uint8 array stays uint8. *)
Definition rsub255 (v : Z) : Z := (255 - v) mod 256.

(** A finite float64 that is not negative, as a dyadic number:
    [mant * 2^expo]. *)
Record dyadic : Set := Dy { mant : Z; expo : Z }.

(** Rounding to the 53 significant bits of float64, to nearest, ties to
    even.  [d] is the number of bits to drop.  (Below 2^1024 and with no
    subnormal operand, which is the case of every sum of the pipeline,
    this is all there is to float64 rounding.) *)
Definition round53 (x : dyadic) : dyadic :=
  let d := Z.log2 (mant x) + 1 - 53 in
  if d <=? 0 then x
  else
    let q := mant x / 2 ^ d in
    let r := mant x mod 2 ^ d in
    let half := 2 ^ (d - 1) in
    let up := (half <? r) || ((r =? half) && Z.odd q) in
    Dy (if up then q + 1 else q) (expo x + d).

(** The float64 a literal denotes, as a dyadic number. *)
Definition of_float (w : float) : dyadic :=
  match Prim2SF w with
  | S754_finite false m e => Dy (Zpos m) e
  | _ => Dy 0 0
  end.

(** One step of the accumulation loop of [np.dot], [acc += c * w], where
    [c] is a uint8 sample (exact in float64).  The step is a fused
    multiply-add: [c * w + acc] is formed exactly and rounded once. *)
Definition fma (c : Z) (w acc : dyadic) : dyadic :=
  let e := Z.min (expo w) (expo acc) in
  round53
    (Dy (c * mant w * 2 ^ (expo w - e) + mant acc * 2 ^ (expo acc - e)) e).

(** [np.dot(px[:3], [0.299, 0.587, 0.114])] for one pixel: the three
    steps of the loop, from the accumulator 0.0. *)
Definition dot3 (c0 c1 c2 : Z) : dyadic :=
  fma c2 (of_float 0.114)
    (fma c1 (of_float 0.587) (fma c0 (of_float 0.299) (Dy 0 0))).

(** The C conversion to an integer of a float64 that is not negative: the
    fraction is dropped. *)
Definition trunc_dyadic (x : dyadic) : Z :=
  if 0 <=? expo x then mant x * 2 ^ expo x else mant x / 2 ^ (- expo x).

(** [np.array(x, dtype=np.uint8)] on one element of the dot product. *)
Definition cast_uint8 (x : dyadic) : Z := trunc_dyadic x mod 256.

End np.

(** ** The class *)

Module PencilSketch.

(** The attributes set by the constructor. *)
Record t : Type := mk {
  blur_simga : Z;
  ksize : Z * Z;
  sharpen_value : option Z;
  kernel : option kernel_t
}.

(** [np.array([[0, -1, 0], [-1, sharpen_value, -1], [0, -1, 0]])] *)
Definition default_kernel (sharpen_value : Z) : kernel_t :=
  [[0; -1; 0]; [-1; sharpen_value; -1]; [0; -1; 0]].

(** [__init__]: the four arguments are stored; the kernel is the default
    one when no kernel is given and a sharpen value is.  There is no
    [raise] in the constructor. *)
Definition __init__ (blur_simga : Z) (ksize : Z * Z)
    (sharpen_value : option Z) (kernel : option kernel_t) : res t :=
  Ok {| blur_simga := blur_simga;
        ksize := ksize;
        sharpen_value := sharpen_value;
        kernel := match kernel, sharpen_value with
                  | None, Some v => Some (default_kernel v)
                  | _, _ => kernel
                  end |}.

(** *** dodge, one element at a time *)

(** The value of [result] at one element after lines 38-40. *)
Definition dodge_float (front back : Z) : float :=
  let result := (np.float64 back * 255 / (255 - np.float64 front))%float in
  let result := if (255 <? result)%float then 255%float else result in
  let result := if back =? 255 then 255%float else result in
  result.

Definition dodge_px (front back : Z) : Z :=
  np.astype_uint8 (dodge_float front back).

Definition dodge (front back : ndarray) : ndarray := zip3 dodge_px front back.

(** *** grayscale (lines 65-68) *)

Definition luma (c0 c1 c2 : Z) : Z := np.cast_uint8 (np.dot3 c0 c1 c2).

(** One pixel: the first three channels are weighted, the sum is cast to
    uint8 and stacked three times. *)
Definition grayscale_px (px : list Z) : list Z :=
  match px with
  | c0 :: c1 :: c2 :: _ => let l := luma c0 c1 c2 in [l; l; l]
  | _ => []
  end.

(** [np.dot] needs the last axis of [frame[..., :3]] to have length 3,
    whatever the other axes.  A nested list records the channel count in
    its pixels only: a list without pixels (H = 0 or W = 0) is read as a
    frame of three channels or more, which [np.dot] accepts.  The frames of
    shape (0, W, C) and (H, 0, C) with C < 3, on which [np.dot] raises
    ValueError, are not among the nested lists: what is stated of the
    exception raised takes a frame with at least one pixel. *)
Definition dot_aligned (frame : ndarray) : bool :=
  forallb (forallb (fun px => (3 <=? length px)%nat)) frame.

Definition grayscale (frame : ndarray) : res ndarray :=
  if dot_aligned frame
  then Ok (fmap (M := list) (fmap (M := list) grayscale_px) frame)
  else Raise ValueError.

Section Pipeline.

(** [cv2.GaussianBlur(src, ksize=, sigmaX=)] and
    [cv2.filter2D(src=, ddepth=-1, kernel=)], border type left to its
    default. *)
Variable GaussianBlur : ndarray -> Z * Z -> Z -> res ndarray.
Variable filter2D : ndarray -> kernel_t -> res ndarray.

Definition sharpen (self : t) (image : ndarray) : res ndarray :=
  match sharpen_value self with
  | Some _ =>
      let inverted := map3 np.rsub255 image in
      match kernel self with
      | Some k =>
          let* filtered := filter2D inverted k in
          Ok (map3 np.rsub255 filtered)
      | None => Raise cv2_error
      end
  | None => Ok image
  end.

(** The pipeline up to and including the dodge blend. *)
Definition dodge_pipeline (self : t) (frame : ndarray) : res ndarray :=
  let* grayscale := grayscale frame in
  let inverted_img := map3 np.rsub255 grayscale in
  let* blur_img := GaussianBlur inverted_img (ksize self) (blur_simga self) in
  Ok (dodge blur_img grayscale).

Definition __call__ (self : t) (frame : ndarray) : res ndarray :=
  let* final_img := dodge_pipeline self frame in
  sharpen self final_img.

End Pipeline.

End PencilSketch.

(** ** OpenCV: a reference model of the two routines the pipeline calls

    OpenCV is an external library.  What follows writes down its documented
    behaviour for 8-bit images: border extrapolation ([borderInterpolate],
    with [BORDER_DEFAULT = BORDER_REFLECT_101]), the argument checks, the
    correlation of [filter2D] with saturation to uint8, and a blur with a
    normalised integer kernel.  The blur weights are binomial, an integer
    approximation of the Gaussian; OpenCV's own weights depend on sigma.
    Nothing proved about the pipeline depends on the weights. *)

Module cv2.

Inductive BorderTypes : Set :=
| BORDER_CONSTANT      (* iiiiii|abcdefgh|iiiiiii *)
| BORDER_REPLICATE     (* aaaaaa|abcdefgh|hhhhhhh *)
| BORDER_REFLECT       (* fedcba|abcdefgh|hgfedcb *)
| BORDER_WRAP          (* cdefgh|abcdefgh|abcdefg *)
| BORDER_REFLECT_101.  (* gfedcb|abcdefgh|gfedcba *)

(** The border type of a call that does not pass one. *)
Definition BORDER_DEFAULT : BorderTypes := BORDER_REFLECT_101.

Definition in_range (p len : Z) : bool := (0 <=? p) && (p <? len).

(** The do-while loop of [borderInterpolate] for the two reflecting
    modes; [delta] is 1 for [BORDER_REFLECT_101] and 0 for
    [BORDER_REFLECT]. *)
Fixpoint reflect_loop (fuel : nat) (delta len p : Z) : Z :=
  match fuel with
  | O => p
  | S fuel' =>
      let p' := if p <? 0 then - p - 1 + delta
                else len - 1 - (p - len) - delta in
      if in_range p' len then p' else reflect_loop fuel' delta len p'
  end.

(** [borderInterpolate(p, len, borderType)]: the index of the source
    sample that stands for the virtual index [p]. *)
Definition borderInterpolate (p len : Z) (borderType : BorderTypes) : Z :=
  if in_range p len then p
  else match borderType with
       | BORDER_REPLICATE => if p <? 0 then 0 else len - 1
       | BORDER_REFLECT =>
           if len =? 1 then 0
           else reflect_loop (Z.to_nat (Z.abs p + 1)) 0 len p
       | BORDER_REFLECT_101 =>
           if len =? 1 then 0
           else reflect_loop (Z.to_nat (Z.abs p + 1)) 1 len p
       | BORDER_WRAP => p mod len
       | BORDER_CONSTANT => -1
       end.

(** [saturate_cast<uchar>] *)
Definition saturate_uint8 (v : Z) : Z := Z.max 0 (Z.min 255 v).

Definition Zsum (l : list Z) : Z := foldr Z.add 0 l.

Definition rows (src : ndarray) : Z := Z.of_nat (length src).
Definition cols (src : ndarray) : Z :=
  Z.of_nat (length (default [] (head src))).

(** The sample read at (y, x) in channel [c]; 0 outside the buffer. *)
Definition src_at (src : ndarray) (y x : Z) (c : nat) : Z :=
  if (y <? 0) || (x <? 0) then 0
  else default 0 (at3 src (Z.to_nat y) (Z.to_nat x) c).

(** Correlation at one sample, the anchor at the kernel centre:
    sum over (i, j) of k[i][j] * src[y + i - ay][x + j - ax]. *)
Definition tap_sum (border : BorderTypes) (k : kernel_t) (src : ndarray)
    (y x c : nat) : Z :=
  let ay := Z.of_nat (length k) / 2 in
  let ax := Z.of_nat (length (default [] (head k))) / 2 in
  Zsum (imap (fun i krow =>
    Zsum (imap (fun j w =>
      w * src_at src
            (borderInterpolate (Z.of_nat y + Z.of_nat i - ay) (rows src) border)
            (borderInterpolate (Z.of_nat x + Z.of_nat j - ax) (cols src) border)
            c) krow)) k).

(** Every sample replaced by the rounded, saturated correlation divided
    by [norm]; each channel is processed on its own. *)
Definition correlate (border : BorderTypes) (k : kernel_t) (norm : Z)
    (src : ndarray) : ndarray :=
  imap (fun y row =>
    imap (fun x px =>
      imap (fun c _ =>
        saturate_uint8 ((tap_sum border k src y x c + norm / 2) / norm))
        px) row) src.

Definition empty {A} (m : list (list A)) : bool :=
  match m with
  | [] => true
  | r :: _ => match r with [] => true | _ => false end
  end.

(** [cv2.filter2D(src, -1, kernel)]: both arguments must be non-empty. *)
Definition filter2D (src : ndarray) (kernel : kernel_t) : res ndarray :=
  if empty src || empty kernel then Raise cv2_error
  else Ok (correlate BORDER_DEFAULT kernel 1 src).

(** Row [n] of Pascal's triangle. *)
Fixpoint binomial_row (n : nat) : list Z :=
  match n with
  | O => [1]
  | S n' => let r := binomial_row n' in zip_with Z.add (0 :: r) (r ++ [0])
  end.

Definition outer (u v : list Z) : kernel_t :=
  fmap (M := list) (fun a => fmap (M := list) (Z.mul a) v) u.

(** The kernel size used for an 8-bit image: a size that is not positive
    is derived from sigma when sigma is positive. *)
Definition gaussian_ksize (k sigma : Z) : Z :=
  if (k <=? 0) && (0 <? sigma) then Z.lor (sigma * 3 * 2 + 1) 1 else k.

(** [cv2.GaussianBlur(src, ksize, sigmaX)]: sigmaY is sigmaX; the sizes
    must be positive and odd once derived. *)
Definition GaussianBlur (src : ndarray) (ksize : Z * Z) (sigmaX : Z)
    : res ndarray :=
  if empty src then Raise cv2_error
  else
    let kw := gaussian_ksize (fst ksize) sigmaX in
    let kh := gaussian_ksize (snd ksize) sigmaX in
    if (0 <? kw) && Z.odd kw && (0 <? kh) && Z.odd kh then
      let k := outer (binomial_row (Z.to_nat (kh - 1)))
                     (binomial_row (Z.to_nat (kw - 1))) in
      Ok (correlate BORDER_DEFAULT k (2 ^ (kw - 1 + (kh - 1))) src)
    else Raise cv2_error.

End cv2.

(** ** The pipeline over a store of buffers

    Every numpy array is a buffer at a location of the store.  An operator
    ([a * 255.0], [255 - a], [astype], [np.stack], a cv2 call without a
    destination argument, ...) allocates the buffer of its result; an
    indexed assignment ([result[mask] = 255]) overwrites the buffer it
    names; returning a name returns the location itself.  Unnamed
    temporaries ([back * 255.0], the masks) are folded into the operator
    that consumes them.  The store is threaded through exceptions as
    well. *)

Module Heap.

Inductive buffer : Type :=
| U8 (a : ndarray)
| F64 (a : arr float).

Abbreviation loc := positive.
Abbreviation heap := (gmap loc buffer).

Definition M (A : Type) : Type := heap -> res A * heap.

Definition ret {A} (a : A) : M A := fun h => (Ok a, h).
Definition raise {A} (e : exn) : M A := fun h => (Raise e, h).
Definition bind {A B} (m : M A) (k : A -> M B) : M B :=
  fun h => match m h with
           | (Ok a, h') => k a h'
           | (Raise e, h') => (Raise e, h')
           end.

Notation "x <- m ;; k" := (bind m (fun x => k))
  (at level 100, m at next level, right associativity).
Notation "m ;;; k" := (bind m (fun _ => k))
  (at level 100, right associativity).

(** A new buffer, at a location the store does not use. *)
Definition alloc (b : buffer) : M loc :=
  fun h => let l := fresh (dom h) in (Ok l, <[l := b]> h).

Definition load_u8 (l : loc) : M ndarray :=
  fun h => match h !! l with
           | Some (U8 a) => (Ok a, h)
           | _ => (Raise ValueError, h)
           end.

Definition load_f64 (l : loc) : M (arr float) :=
  fun h => match h !! l with
           | Some (F64 a) => (Ok a, h)
           | _ => (Raise ValueError, h)
           end.

(** Assignment into the buffer at [l]. *)
Definition store (l : loc) (b : buffer) : M unit :=
  fun h => match h !! l with
           | Some _ => (Ok tt, <[l := b]> h)
           | None => (Raise ValueError, h)
           end.

(** The result of a pure numpy expression or of a cv2 call, in a new
    buffer. *)
Definition new_u8 (r : res ndarray) : M loc :=
  match r with
  | Ok a => alloc (U8 a)
  | Raise e => raise e
  end.

Definition dodge (front back : loc) : M loc :=
  f <- load_u8 front ;;
  b <- load_u8 back ;;
  (* result = back * 255.0 / (255.0 - front) *)
  result <- alloc (F64 (zip3 (fun f b =>
              (np.float64 b * 255 / (255 - np.float64 f))%float) f b)) ;;
  (* result[result > 255] = 255 *)
  r <- load_f64 result ;;
  store result (F64 (map3 (fun r =>
              if (255 <? r)%float then 255%float else r) r)) ;;;
  (* result[back == 255] = 255 *)
  r <- load_f64 result ;;
  b <- load_u8 back ;;
  store result (F64 (zip3 (fun r b =>
              if b =? 255 then 255%float else r) r b)) ;;;
  (* return result.astype('uint8') *)
  r <- load_f64 result ;;
  alloc (U8 (map3 np.astype_uint8 r)).

Section Pipeline.

Variable GaussianBlur : ndarray -> Z * Z -> Z -> res ndarray.
Variable filter2D : ndarray -> kernel_t -> res ndarray.

Definition sharpen (self : PencilSketch.t) (image : loc) : M loc :=
  match PencilSketch.sharpen_value self with
  | Some _ =>
      img <- load_u8 image ;;
      inverted <- alloc (U8 (map3 np.rsub255 img)) ;;
      inv <- load_u8 inverted ;;
      match PencilSketch.kernel self with
      | Some k =>
          filtered <- new_u8 (filter2D inv k) ;;
          flt <- load_u8 filtered ;;
          alloc (U8 (map3 np.rsub255 flt))
      | None => raise cv2_error
      end
  | None => ret image
  end.

Definition grayscale (frame : loc) : M loc :=
  f <- load_u8 frame ;;
  new_u8 (PencilSketch.grayscale f).

Definition invert_blur (self : PencilSketch.t) (grayscale : loc) : M loc :=
  g <- load_u8 grayscale ;;
  inverted_img <- alloc (U8 (map3 np.rsub255 g)) ;;
  inv <- load_u8 inverted_img ;;
  new_u8 (GaussianBlur inv (PencilSketch.ksize self)
            (PencilSketch.blur_simga self)).

Definition __call__ (self : PencilSketch.t) (frame : loc) : M loc :=
  grayscale <- grayscale frame ;;
  blur_img <- invert_blur self grayscale ;;
  final_img <- dodge blur_img grayscale ;;
  sharpen self final_img.

End Pipeline.

(** The buffers of [h] are all in [h'], with the same contents. *)
Definition unchanged (h h' : heap) : Prop :=
  forall l b, h !! l = Some b -> h' !! l = Some b.

(** A computation that leaves every buffer it is given as it was. *)
Definition frame_preserving {A} (m : M A) : Prop :=
  forall h, unchanged h (snd (m h)).

(** [m] run from [h] leaves the buffers of [h] unchanged and ends as the
    pure computation [v] does: with a buffer holding the same array, or
    with the same exception. *)
Definition computes (m : M loc) (h : heap) (v : res ndarray) : Prop :=
  unchanged h (snd (m h)) /\
  match fst (m h), v with
  | Ok l, Ok a => snd (m h) !! l = Some (U8 a)
  | Raise e, Raise e' => e = e'
  | _, _ => False
  end.

(** A computation that frees no buffer. *)
Definition keeps_buffers {A} (m : M A) : Prop :=
  forall h l, snd (m h) !! l = None -> h !! l = None.

(** A computation whose result, when it returns one, is a buffer that did
    not exist before. *)
Definition returns_new_buffer (m : M loc) : Prop :=
  forall h l h', m h = (Ok l, h') -> h !! l = None.

End Heap.

(** ** Integer view of the dodge blend, and sample buffers *)

(** The 256 values of a uint8 sample. *)
Definition uint8_values : list Z := Z.of_nat <$> seq 0 256.

(** What the floating-point lines of [dodge] come to on uint8 operands, in
    integer arithmetic: white stays white, a positive sample over a zero
    denominator saturates, 0/0 is nan and is cast to 0, and otherwise the
    quotient is truncated and capped at 255. *)
Definition dodge_int (front back : Z) : Z :=
  if back =? 255 then 255
  else if front =? 255 then (if back =? 0 then 0 else 255)
  else Z.min 255 (back * 255 / (255 - front)).

(** A 2x2 frame with an alpha channel, and its sketch with sigma 5, size
    (3, 3) and sharpen value 10 on the reference model. *)
Definition frame_2x2x4 : ndarray :=
  [[[10; 200; 30; 255]; [200; 100; 50; 255]];
   [[0; 0; 0; 255]; [255; 255; 255; 255]]].

Definition sketch_2x2 : ndarray :=
  [[[255; 255; 255]; [235; 235; 235]]; [[0; 0; 0]; [255; 255; 255]]].

(** The sketch of the same frame with sigma 5, size (3, 3) and no sharpen
    value on the reference model. *)
Definition sketch_2x2_dodge : ndarray :=
  [[[250; 250; 250]; [252; 252; 252]]; [[0; 0; 0]; [255; 255; 255]]].

(** A frame of one colour: every pixel is [px]. *)
Definition solid (H W : nat) (px : list Z) : ndarray :=
  replicate H (replicate W px).

(** [frame[..., :3]]: the first three channels of every pixel. *)
Definition first_three_channels (frame : ndarray) : ndarray :=
  fmap (M := list) (fmap (M := list) (take 3)) frame.

(** ** The dot product against the library's rounding and in integers *)

(** The value of a dyadic number in units of 2^-56 (the three weights are
    whole numbers of such units). *)
Definition units56 (x : np.dyadic) : Z := np.mant x * 2 ^ (np.expo x + 56).

(** Two dyadic numbers of the same value. *)
Definition dyadic_eqb (x y : np.dyadic) : bool :=
  let e := Z.min (np.expo x) (np.expo y) in
  np.mant x * 2 ^ (np.expo x - e) =? np.mant y * 2 ^ (np.expo y - e).

(** The fused step with the rounding of the standard library's IEEE-754
    specification ([binary_normalize]) in place of [np.round53]. *)
Definition fma_std (c : Z) (w acc : np.dyadic) : np.dyadic :=
  let e := Z.min (np.expo w) (np.expo acc) in
  match binary_normalize prec emax
          (c * np.mant w * 2 ^ (np.expo w - e)
           + np.mant acc * 2 ^ (np.expo acc - e)) e false with
  | S754_finite false m e' => np.Dy (Zpos m) e'
  | _ => np.Dy 0 0
  end.

Definition dot3_std (c0 c1 c2 : Z) : np.dyadic :=
  fma_std c2 (np.of_float 0.114)
    (fma_std c1 (np.of_float 0.587)
       (fma_std c0 (np.of_float 0.299) (np.Dy 0 0))).

Definition dot3_samples : list Z :=
  [0; 1; 2; 3; 50; 100; 127; 128; 200; 254; 255].

(** The claim's luma, in exact arithmetic: the integer part of
    0.299 c0 + 0.587 c1 + 0.114 c2. *)
Definition luma_exact (c0 c1 c2 : Z) : Z :=
  (299 * c0 + 587 * c1 + 114 * c2) / 1000.

(** * Facts *)

(** ** Arrays *)

Lemma Forall_zip_with_any {A B C} (P : C -> Prop) (f : A -> B -> C) l k :
  (forall u v, P (f u v)) -> Forall P (zip_with f l k).
Proof.
  intros Hf. revert k. induction l as [|u l IH]; intros [|v k]; simpl;
    constructor; auto.
Qed.

Lemma Forall_zip_with_both {A B C} (P : A -> Prop) (Q : B -> Prop)
    (R : C -> Prop) (f : A -> B -> C) l k :
  (forall u v, P u -> Q v -> R (f u v)) ->
  Forall P l -> Forall Q k -> Forall R (zip_with f l k).
Proof.
  intros Hf Hl. revert k. induction Hl as [|u l Hu _ IH]; intros k Hk.
  - constructor.
  - destruct Hk as [|v k Hv Hk]; simpl; constructor; auto.
Qed.

Section ArrayFacts.
Context {A B C : Type}.

Lemma at3_map3 (f : A -> B) (a : arr A) y x c :
  at3 (map3 f a) y x c = f <$> at3 a y x c.
Proof.
  unfold at3, map3. rewrite list_lookup_fmap.
  destruct (a !! y) as [row|]; simpl; [|done].
  rewrite list_lookup_fmap.
  destruct (row !! x) as [px|]; simpl; [|done].
  by rewrite list_lookup_fmap.
Qed.

Lemma at3_zip3 (f : A -> B -> C) (a : arr A) (b : arr B) y x c u v :
  at3 a y x c = Some u -> at3 b y x c = Some v ->
  at3 (zip3 f a b) y x c = Some (f u v).
Proof.
  unfold at3, zip3. rewrite lookup_zip_with.
  destruct (a !! y) as [ra|]; simpl; [|done].
  destruct (b !! y) as [rb|]; simpl; [|done].
  rewrite lookup_zip_with.
  destruct (ra !! x) as [pa|]; simpl; [|done].
  destruct (rb !! x) as [pb|]; simpl; [|done].
  rewrite lookup_zip_with.
  intros -> ->. done.
Qed.

Lemma has_shape_map3 (f : A -> B) (a : arr A) H W K :
  has_shape H W K a -> has_shape H W K (map3 f a).
Proof.
  unfold has_shape, map3. intros [Hl Hr]. split.
  - by rewrite length_fmap.
  - apply Forall_fmap. eapply Forall_impl; [exact Hr|].
    intros row [Hw Hp]. simpl. split.
    + by rewrite length_fmap.
    + apply Forall_fmap. eapply Forall_impl; [exact Hp|].
      intros px Hk. simpl. by rewrite length_fmap.
Qed.

Lemma row_shape_zip (f : A -> B -> C) (ra : list (list A))
    (rb : list (list B)) K :
  Forall (fun px => length px = K) ra ->
  Forall (fun px => length px = K) rb ->
  Forall (fun px => length px = K) (zip_with (zip_with f) ra rb).
Proof.
  apply Forall_zip_with_both. intros pa pb Ha Hb.
  rewrite length_zip_with. lia.
Qed.

Lemma has_shape_zip3 (f : A -> B -> C) (a : arr A) (b : arr B) H W K :
  has_shape H W K a -> has_shape H W K b -> has_shape H W K (zip3 f a b).
Proof.
  unfold has_shape, zip3. intros [Hla Hra] [Hlb Hrb]. split.
  - rewrite length_zip_with. lia.
  - revert Hra Hrb. apply Forall_zip_with_both.
    intros ra rb [Hwa Hpa] [Hwb Hpb]. split.
    + rewrite length_zip_with. lia.
    + by apply row_shape_zip.
Qed.

End ArrayFacts.

Lemma all_uint8_map3 {A} (f : A -> Z) (a : arr A) :
  (forall v, is_uint8 (f v)) -> all_uint8 (map3 f a).
Proof.
  intros Hf. unfold all_uint8, map3.
  apply Forall_fmap, Forall_forall. intros row _. simpl.
  apply Forall_fmap, Forall_forall. intros px _. simpl.
  apply Forall_fmap, Forall_forall. intros v _. apply Hf.
Qed.

Lemma all_uint8_zip3 {A B} (f : A -> B -> Z) (a : arr A) (b : arr B) :
  (forall u v, is_uint8 (f u v)) -> all_uint8 (zip3 f a b).
Proof.
  intros Hf. unfold all_uint8, zip3.
  apply Forall_zip_with_any. intros ra rb.
  apply Forall_zip_with_any. intros pa pb.
  by apply Forall_zip_with_any.
Qed.

Lemma gray_pixel_fmap (f : Z -> Z) px : gray_pixel px -> gray_pixel (f <$> px).
Proof. intros [v ->]. by exists (f v). Qed.

Lemma channels_equal_map3 (f : Z -> Z) (a : ndarray) :
  channels_equal a -> channels_equal (map3 f a).
Proof.
  unfold channels_equal, map3. intros Ha.
  apply Forall_fmap. eapply Forall_impl; [exact Ha|]. intros row Hr. simpl.
  apply Forall_fmap. eapply Forall_impl; [exact Hr|]. intros px Hp. simpl.
  by apply gray_pixel_fmap.
Qed.

Lemma channels_equal_zip3 (f : Z -> Z -> Z) (a b : ndarray) :
  channels_equal a -> channels_equal b -> channels_equal (zip3 f a b).
Proof.
  unfold channels_equal, zip3.
  apply Forall_zip_with_both. intros ra rb.
  apply Forall_zip_with_both. intros pa pb [u ->] [v ->].
  by exists (f u v).
Qed.

(** ** Scalars *)

Lemma astype_uint8_range x : is_uint8 (np.astype_uint8 x).
Proof.
  unfold is_uint8, np.astype_uint8.
  destruct (np.trunc_SF (Prim2SF x)) as [z|]; [|lia].
  pose proof (Z.mod_pos_bound z 256). lia.
Qed.

Lemma rsub255_range v : is_uint8 (np.rsub255 v).
Proof.
  unfold is_uint8, np.rsub255. pose proof (Z.mod_pos_bound (255 - v) 256). lia.
Qed.

(** The cast keeps the integer part: for a positive finite double
    [m * 2^e] the result [q] is the integer with [q <= m * 2^e < q + 1]. *)
Lemma trunc_SF_floor m e :
  exists q, np.trunc_SF (S754_finite false m e) = Some q /\
    if 0 <=? e then q = Zpos m * 2 ^ e
    else q * 2 ^ (- e) <= Zpos m < (q + 1) * 2 ^ (- e).
Proof.
  unfold np.trunc_SF. destruct (Z.leb_spec 0 e) as [He|He].
  - eexists. split; [reflexivity|]. by rewrite Z.shiftl_mul_pow2.
  - eexists. split; [reflexivity|].
    rewrite Z.shiftr_div_pow2 by lia.
    assert (0 < 2 ^ (- e)) by (apply Z.pow_pos_nonneg; lia).
    pose proof (Z.mul_div_le (Zpos m) (2 ^ (- e)) ltac:(lia)).
    pose proof (Z.mul_succ_div_gt (Zpos m) (2 ^ (- e)) ltac:(lia)).
    lia.
Qed.

Lemma uint8_values_complete v : is_uint8 v -> v ∈ uint8_values.
Proof.
  intros Hv. unfold uint8_values.
  apply list_elem_of_fmap. exists (Z.to_nat v). split; [unfold is_uint8 in Hv; lia|].
  apply elem_of_seq. unfold is_uint8 in Hv. lia.
Qed.

Lemma forall_uint8 (P : Z -> bool) :
  forallb P uint8_values = true -> forall v, is_uint8 v -> P v = true.
Proof.
  intros HP v Hv. rewrite forallb_forall in HP. apply HP.
  apply list_elem_of_In. by apply uint8_values_complete.
Qed.

(** ** dodge, element by element *)

Lemma dodge_table :
  forallb (fun front => forallb (fun back =>
    PencilSketch.dodge_px front back =? dodge_int front back)
    uint8_values) uint8_values = true.
Proof. vm_compute. reflexivity. Qed.

Lemma dodge_px_int front back :
  is_uint8 front -> is_uint8 back ->
  PencilSketch.dodge_px front back = dodge_int front back.
Proof.
  intros Hf Hb. apply Z.eqb_eq.
  apply (forall_uint8 (fun back =>
    PencilSketch.dodge_px front back =? dodge_int front back)); [|exact Hb].
  apply (forall_uint8 (fun front => forallb (fun back =>
    PencilSketch.dodge_px front back =? dodge_int front back)
    uint8_values)); [|exact Hf].
  exact dodge_table.
Qed.

(** With a positive back sample the blend saturates: a zero denominator
    or a quotient above 255 gives 255. *)
Lemma dodge_saturates front back :
  is_uint8 front -> is_uint8 back -> 0 < back ->
  front = 255 \/ 255 * (255 - front) < back * 255 ->
  PencilSketch.dodge_px front back = 255.
Proof.
  intros Hf Hb Hpos Hsat. rewrite dodge_px_int by done.
  unfold dodge_int, is_uint8 in *.
  destruct (Z.eqb_spec back 255); [done|].
  destruct (Z.eqb_spec front 255).
  - destruct (Z.eqb_spec back 0); [lia|done].
  - destruct Hsat as [?|Hsat]; [lia|].
    apply Z.min_l. apply Z.div_le_lower_bound; lia.
Qed.

Lemma dodge_px_white front : PencilSketch.dodge_px front 255 = 255.
Proof.
  unfold PencilSketch.dodge_px, PencilSketch.dodge_float.
  change (255 =? 255) with true. cbv iota. vm_compute. reflexivity.
Qed.

(** ** The dot product of the grayscale stage *)

(** On every product of a uint8 sample and a weight, [np.round53] is the
    rounding of the primitive float64 multiplication. *)
Lemma round53_is_the_float64_rounding_of_products :
  forallb (fun c =>
    dyadic_eqb (np.fma c (np.of_float 0.299) (np.Dy 0 0))
               (np.of_float (np.float64 c * 0.299)%float)
    && dyadic_eqb (np.fma c (np.of_float 0.587) (np.Dy 0 0))
                  (np.of_float (np.float64 c * 0.587)%float)
    && dyadic_eqb (np.fma c (np.of_float 0.114) (np.Dy 0 0))
                  (np.of_float (np.float64 c * 0.114)%float))
    uint8_values = true.
Proof. vm_compute. reflexivity. Qed.

(** On the gray pixels and on a grid of colours, the fused sums are those
    the standard library's rounding gives. *)
Lemma dot3_is_the_library_rounding :
  forallb (fun v => dyadic_eqb (np.dot3 v v v) (dot3_std v v v))
    uint8_values = true /\
  forallb (fun a => forallb (fun b => forallb (fun c =>
    dyadic_eqb (np.dot3 a b c) (dot3_std a b c))
    dot3_samples) dot3_samples) dot3_samples = true.
Proof. split; vm_compute; reflexivity. Qed.

Lemma round53_error x :
  0 <= np.mant x -> -56 <= np.expo x -> units56 x < 2 ^ 64 ->
  0 <= np.mant (np.round53 x) /\ -56 <= np.expo (np.round53 x) /\
  Z.abs (units56 (np.round53 x) - units56 x) <= 2 ^ 10.
Proof.
  destruct x as [n e]. unfold units56, np.round53. simpl. intros Hn He Hlt.
  destruct (Z.leb_spec (Z.log2 n + 1 - 53) 0) as [Hd|Hd]; simpl.
  { split; [done|]. split; [done|]. rewrite Z.sub_diag. simpl. lia. }
  set (d := Z.log2 n + 1 - 53) in *.
  assert (Hpos : 0 < n) by (destruct (Z.eq_dec n 0) as [->|]; [simpl in d; lia|lia]).
  assert (HP : 0 < 2 ^ (e + 56)) by (apply Z.pow_pos_nonneg; lia).
  assert (H2d : 2 ^ d = 2 * 2 ^ (d - 1)).
  { replace d with (1 + (d - 1)) at 1 by lia. rewrite Z.pow_add_r by lia. done. }
  assert (Hh : 0 < 2 ^ (d - 1)) by (apply Z.pow_pos_nonneg; lia).
  pose proof (Z.div_mod n (2 ^ d) ltac:(lia)) as Hdm.
  pose proof (Z.mod_pos_bound n (2 ^ d) ltac:(lia)) as Hr.
  assert (Hq : 0 <= n / 2 ^ d) by (apply Z.div_pos; lia).
  set (q := n / 2 ^ d) in *. set (r := n mod 2 ^ d) in *.
  set (half := 2 ^ (d - 1)) in *.
  (* the size of half an ulp, in units *)
  assert (Hulp : half * 2 ^ (e + 56) <= 2 ^ 10).
  { unfold half. rewrite <- Z.pow_add_r by lia.
    apply Z.pow_le_mono_r; [lia|].
    pose proof (Z.log2_spec n Hpos) as [Hlo _].
    assert (2 ^ (Z.log2 n + (e + 56)) < 2 ^ 64).
    { rewrite Z.pow_add_r by (pose proof (Z.log2_nonneg n); lia). nia. }
    apply Z.pow_lt_mono_r_iff in H; [|lia|lia]. lia. }
  assert (Hexp : 2 ^ (e + d + 56) = 2 ^ d * 2 ^ (e + 56)).
  { replace (e + d + 56) with (d + (e + 56)) by lia.
    rewrite Z.pow_add_r by lia. done. }
  destruct ((half <? r) || ((r =? half) && Z.odd q)) eqn:Hup.
  - simpl. split; [lia|]. split; [lia|]. rewrite Hexp.
    assert (half <= r).
    { apply orb_true_iff in Hup as [Hup|Hup].
      - apply Z.ltb_lt in Hup. lia.
      - apply andb_true_iff in Hup as [Hup _]. apply Z.eqb_eq in Hup. lia. }
    replace ((q + 1) * (2 ^ d * 2 ^ (e + 56)) - n * 2 ^ (e + 56))
      with ((2 ^ d - r) * 2 ^ (e + 56)) by nia.
    rewrite Z.abs_eq by nia. nia.
  - simpl. split; [lia|]. split; [lia|]. rewrite Hexp.
    assert (r <= half).
    { apply orb_false_iff in Hup as [Hup _]. apply Z.ltb_ge in Hup. lia. }
    replace (q * (2 ^ d * 2 ^ (e + 56)) - n * 2 ^ (e + 56))
      with (- (r * 2 ^ (e + 56))) by nia.
    rewrite Z.abs_opp, Z.abs_eq by nia. nia.
Qed.

Lemma fma_error c w acc :
  0 <= c -> 0 <= np.mant w -> 0 <= np.mant acc ->
  -56 <= np.expo w -> -56 <= np.expo acc ->
  c * units56 w + units56 acc < 2 ^ 64 ->
  0 <= np.mant (np.fma c w acc) /\ -56 <= np.expo (np.fma c w acc) /\
  Z.abs (units56 (np.fma c w acc) - (c * units56 w + units56 acc)) <= 2 ^ 10.
Proof.
  intros Hc Hw Ha Hew Hea Hlt. unfold np.fma.
  set (e := Z.min (np.expo w) (np.expo acc)).
  set (x := np.Dy _ e).
  assert (Hx : units56 x = c * units56 w + units56 acc).
  { unfold units56, x. simpl.
    rewrite Z.mul_add_distr_r, <- !Z.mul_assoc, <- !Z.pow_add_r by lia.
    replace (np.expo w - e + (e + 56)) with (np.expo w + 56) by lia.
    replace (np.expo acc - e + (e + 56)) with (np.expo acc + 56) by lia.
    done. }
  rewrite <- Hx. apply round53_error.
  - unfold x. simpl.
    assert (0 <= 2 ^ (np.expo w - e)) by (apply Z.pow_nonneg; lia).
    assert (0 <= 2 ^ (np.expo acc - e)) by (apply Z.pow_nonneg; lia).
    nia.
  - unfold x, e. simpl. lia.
  - by rewrite Hx.
Qed.

Lemma trunc_units56 x :
  -56 <= np.expo x -> np.trunc_dyadic x = units56 x / 2 ^ 56.
Proof.
  destruct x as [m e]. unfold np.trunc_dyadic, units56. cbn [np.mant np.expo].
  intros He. destruct (Z.leb_spec 0 e).
  - rewrite Z.pow_add_r by lia. rewrite Z.mul_assoc, Z.div_mul; [done|].
    apply Z.pow_nonzero; lia.
  - assert (H56 : 2 ^ 56 = 2 ^ (- e) * 2 ^ (e + 56)).
    { rewrite <- Z.pow_add_r by lia. f_equal. lia. }
    rewrite H56. rewrite Z.div_mul_cancel_r; [done| |]; apply Z.pow_nonzero; lia.
Qed.

(** The stored luma is the integer part of the exact weighted sum, or one
    less; it is the integer part when the exact sum is not an integer. *)
Lemma luma_bounds c0 c1 c2 :
  is_uint8 c0 -> is_uint8 c1 -> is_uint8 c2 ->
  luma_exact c0 c1 c2 - 1 <= PencilSketch.luma c0 c1 c2 <= luma_exact c0 c1 c2 /\
  ((299 * c0 + 587 * c1 + 114 * c2) mod 1000 <> 0 ->
   PencilSketch.luma c0 c1 c2 = luma_exact c0 c1 c2).
Proof.
  intros H0 H1 H2. unfold luma_exact.
  set (s := 299 * c0 + 587 * c1 + 114 * c2). unfold is_uint8 in *.
  assert (Hw0 : np.of_float 0.299 = np.Dy 5386305154335113 (-54))
    by (vm_compute; reflexivity).
  assert (Hw1 : np.of_float 0.587 = np.Dy 5287225962532962 (-53))
    by (vm_compute; reflexivity).
  assert (Hw2 : np.of_float 0.114 = np.Dy 8214565720323785 (-56))
    by (vm_compute; reflexivity).
  unfold PencilSketch.luma, np.cast_uint8, np.dot3. rewrite Hw0, Hw1, Hw2.
  set (w0 := np.Dy 5386305154335113 (-54)).
  set (w1 := np.Dy 5287225962532962 (-53)).
  set (w2 := np.Dy 8214565720323785 (-56)).
  assert (U0 : units56 w0 = 21545220617340452) by (vm_compute; reflexivity).
  assert (U1 : units56 w1 = 42297807700263696) by (vm_compute; reflexivity).
  assert (U2 : units56 w2 = 8214565720323785) by (vm_compute; reflexivity).
  assert (UZ : units56 (np.Dy 0 0) = 0) by reflexivity.
  assert (P64 : 2 ^ 64 = 18446744073709551616) by reflexivity.
  assert (P10 : 2 ^ 10 = 1024) by reflexivity.
  assert (P56 : 2 ^ 56 = 72057594037927936) by reflexivity.
  destruct (fma_error c0 w0 (np.Dy 0 0)) as (M0 & E0 & D0);
    [lia | simpl; lia | simpl; lia | simpl; lia | simpl; lia
    | rewrite U0, UZ, P64; lia |].
  set (t0 := np.fma c0 w0 (np.Dy 0 0)) in *.
  rewrite U0, UZ, P10 in D0.
  destruct (fma_error c1 w1 t0) as (M1 & E1 & D1);
    [lia | simpl; lia | lia | simpl; lia | lia | rewrite U1, P64; lia |].
  set (t1 := np.fma c1 w1 t0) in *. rewrite U1, P10 in D1.
  destruct (fma_error c2 w2 t1) as (M2 & E2 & D2);
    [lia | simpl; lia | lia | simpl; lia | lia | rewrite U2, P64; lia |].
  set (t2 := np.fma c2 w2 t1) in *. rewrite U2, P10 in D2.
  rewrite trunc_units56 by done. rewrite P56.
  set (V := units56 t2) in *.
  assert (HV : Z.abs (1000 * V - s * 72057594037927936) < 72057594037927936)
    by (unfold s; lia).
  assert (HV0 : 0 <= V).
  { unfold V, units56. assert (0 <= 2 ^ (np.expo t2 + 56)) by (apply Z.pow_nonneg; lia). nia. }
  pose proof (Z.div_mod V 72057594037927936 ltac:(lia)) as Hdm.
  pose proof (Z.mod_pos_bound V 72057594037927936 ltac:(lia)) as Hr.
  pose proof (Z.div_mod s 1000 ltac:(lia)) as Hsm.
  pose proof (Z.mod_pos_bound s 1000 ltac:(lia)) as Hsr.
  set (l := V / 72057594037927936) in *.
  assert (Hl : s / 1000 - 1 <= l <= s / 1000 /\ (s mod 1000 <> 0 -> l = s / 1000)) by lia.
  assert (0 <= l) by (apply Z.div_pos; lia).
  assert (s / 1000 <= 255) by (apply Z.div_le_upper_bound; unfold s; lia).
  rewrite Z.mod_small by lia. exact Hl.
Qed.

Lemma luma_range c0 c1 c2 : is_uint8 (PencilSketch.luma c0 c1 c2).
Proof.
  unfold is_uint8, PencilSketch.luma, np.cast_uint8.
  pose proof (Z.mod_pos_bound (np.trunc_dyadic (np.dot3 c0 c1 c2)) 256). lia.
Qed.

(** ** grayscale *)

Lemma has_shape_dot_aligned (frame : ndarray) H W C :
  has_shape H W C frame -> (3 <= C)%nat ->
  PencilSketch.dot_aligned frame = true.
Proof.
  intros [_ Hrows] HC. unfold PencilSketch.dot_aligned.
  apply forallb_forall. intros row Hin.
  rewrite Forall_forall in Hrows.
  apply list_elem_of_In, Hrows in Hin as [_ Hpx].
  apply forallb_forall. intros px Hin.
  rewrite Forall_forall in Hpx. apply list_elem_of_In, Hpx in Hin.
  apply Nat.leb_le. lia.
Qed.

Lemma grayscale_px_gray px :
  (3 <= length px)%nat -> gray_pixel (PencilSketch.grayscale_px px).
Proof.
  destruct px as [|c0 [|c1 [|c2 alpha]]]; simpl; try lia.
  intros _. by eexists.
Qed.

Lemma grayscale_channels_equal frame gray :
  PencilSketch.grayscale frame = Ok gray -> channels_equal gray.
Proof.
  unfold PencilSketch.grayscale.
  destruct (PencilSketch.dot_aligned frame) eqn:Hal; [|done].
  intros [= <-]. unfold PencilSketch.dot_aligned in Hal.
  rewrite forallb_forall in Hal.
  apply Forall_fmap, Forall_forall. intros row Hrow. simpl.
  apply list_elem_of_In, Hal in Hrow. rewrite forallb_forall in Hrow.
  apply Forall_fmap, Forall_forall. intros px Hpx. simpl.
  apply list_elem_of_In, Hrow in Hpx.
  apply grayscale_px_gray. by apply Nat.leb_le.
Qed.

Lemma gray_pixel_length px : gray_pixel px -> length px = 3%nat.
Proof. by intros [v ->]. Qed.

Lemma grayscale_shape frame gray H W C :
  has_shape H W C frame ->
  PencilSketch.grayscale frame = Ok gray -> has_shape H W 3 gray.
Proof.
  intros [Hlen Hrows] Hg.
  pose proof (grayscale_channels_equal _ _ Hg) as Hce.
  unfold PencilSketch.grayscale in Hg.
  destruct (PencilSketch.dot_aligned frame); [|done].
  injection Hg as <-. split.
  - by rewrite length_fmap.
  - unfold channels_equal in Hce. rewrite Forall_fmap in Hce.
    apply Forall_fmap.
    rewrite Forall_forall in Hrows, Hce. apply Forall_forall.
    intros row Hin. simpl. split.
    + rewrite length_fmap. by apply Hrows.
    + specialize (Hce row Hin). simpl in Hce.
      eapply Forall_impl; [exact Hce|]. intros px. apply gray_pixel_length.
Qed.

(** ** The result monad *)

Lemma res_bind_Ok {A B} (m : res A) (k : A -> res B) b :
  res_bind m k = Ok b -> exists a, m = Ok a /\ k a = Ok b.
Proof. destruct m as [a|e]; simpl; [eauto|done]. Qed.

Lemma res_bind_ret {A} (m : res A) : res_bind m Ok = m.
Proof. by destruct m. Qed.

Lemma res_bind_assoc {A B C} (m : res A) (k1 : A -> res B) (k2 : B -> res C) :
  res_bind (res_bind m k1) k2 = res_bind m (fun a => res_bind (k1 a) k2).
Proof. by destruct m. Qed.

(** ** The OpenCV reference model *)

Section Cv2Facts.

Lemma in_range_spec p len : cv2.in_range p len = true <-> 0 <= p < len.
Proof. unfold cv2.in_range. rewrite andb_true_iff, Z.leb_le, Z.ltb_lt. done. Qed.

Lemma reflect_loop_once fuel delta len p :
  cv2.in_range (if p <? 0 then - p - 1 + delta
                else len - 1 - (p - len) - delta) len = true ->
  cv2.reflect_loop (S fuel) delta len p =
    if p <? 0 then - p - 1 + delta else len - 1 - (p - len) - delta.
Proof. simpl. by intros ->. Qed.

(** One reflection about the first sample: the edge sample is the axis
    and is not repeated. *)
Lemma reflect_101_left k len :
  1 <= k < len -> cv2.borderInterpolate (- k) len cv2.BORDER_REFLECT_101 = k.
Proof.
  intros Hk. unfold cv2.borderInterpolate.
  destruct (cv2.in_range (- k) len) eqn:Hin.
  { apply in_range_spec in Hin. lia. }
  destruct (Z.eqb_spec len 1); [lia|].
  destruct (Z.to_nat (Z.abs (- k) + 1)) as [|fuel] eqn:Hfuel; [lia|].
  rewrite reflect_loop_once.
  - destruct (Z.ltb_spec (- k) 0); lia.
  - destruct (Z.ltb_spec (- k) 0); [|lia]. apply in_range_spec. lia.
Qed.

(** One reflection about the last sample. *)
Lemma reflect_101_right k len :
  1 <= k < len ->
  cv2.borderInterpolate (len - 1 + k) len cv2.BORDER_REFLECT_101
    = len - 1 - k.
Proof.
  intros Hk. unfold cv2.borderInterpolate.
  destruct (cv2.in_range (len - 1 + k) len) eqn:Hin.
  { apply in_range_spec in Hin. lia. }
  destruct (Z.eqb_spec len 1); [lia|].
  destruct (Z.to_nat (Z.abs (len - 1 + k) + 1)) as [|fuel] eqn:Hfuel; [lia|].
  rewrite reflect_loop_once.
  - destruct (Z.ltb_spec (len - 1 + k) 0); lia.
  - destruct (Z.ltb_spec (len - 1 + k) 0); [lia|]. apply in_range_spec. lia.
Qed.

Lemma saturate_uint8_range v : is_uint8 (cv2.saturate_uint8 v).
Proof. unfold is_uint8, cv2.saturate_uint8. lia. Qed.

Variable border : cv2.BorderTypes.
Variable k : kernel_t.
Variable norm : Z.

Lemma correlate_shape src H W C :
  has_shape H W C src -> has_shape H W C (cv2.correlate border k norm src).
Proof.
  intros [Hlen Hrows]. unfold cv2.correlate. split.
  - by rewrite length_imap.
  - rewrite Forall_lookup in Hrows. apply Forall_lookup. intros y row' Hy.
    rewrite list_lookup_imap in Hy.
    destruct (src !! y) as [row|] eqn:Hrow; simplify_eq/=.
    destruct (Hrows _ _ Hrow) as [Hw Hpx]. split.
    + by rewrite length_imap.
    + rewrite Forall_lookup in Hpx. apply Forall_lookup. intros x px' Hx.
      rewrite list_lookup_imap in Hx.
      destruct (row !! x) as [px|] eqn:Hp; simplify_eq/=.
      rewrite length_imap. by eapply Hpx.
Qed.

Lemma correlate_uint8 src : all_uint8 (cv2.correlate border k norm src).
Proof.
  unfold all_uint8, cv2.correlate.
  apply Forall_lookup. intros y row' Hy. rewrite list_lookup_imap in Hy.
  destruct (src !! y) as [row|]; simplify_eq/=.
  apply Forall_lookup. intros x px' Hx. rewrite list_lookup_imap in Hx.
  destruct (row !! x) as [px|]; simplify_eq/=.
  apply Forall_lookup. intros c v Hc. rewrite list_lookup_imap in Hc.
  destruct (px !! c); simplify_eq/=. apply saturate_uint8_range.
Qed.

Lemma src_at_gray src y x c :
  channels_equal src -> (c < 3)%nat ->
  cv2.src_at src y x c = cv2.src_at src y x 0.
Proof.
  intros Hce Hc. unfold cv2.src_at.
  destruct ((y <? 0) || (x <? 0)); [done|]. unfold at3.
  destruct (src !! Z.to_nat y) as [row|] eqn:Hrow; simpl; [|done].
  destruct (row !! Z.to_nat x) as [px|] eqn:Hpx; simpl; [|done].
  unfold channels_equal in Hce. rewrite Forall_lookup in Hce.
  specialize (Hce _ _ Hrow). rewrite Forall_lookup in Hce.
  destruct (Hce _ _ Hpx) as [v ->].
  destruct c as [|[|[|c]]]; simpl; try done. lia.
Qed.

Lemma tap_sum_gray src y x c :
  channels_equal src -> (c < 3)%nat ->
  cv2.tap_sum border k src y x c = cv2.tap_sum border k src y x 0.
Proof.
  intros Hce Hc. unfold cv2.tap_sum. f_equal.
  apply imap_ext. intros i krow _. simpl. f_equal.
  apply imap_ext. intros j w _. simpl. f_equal.
  by apply src_at_gray.
Qed.

Lemma correlate_channels_equal src :
  channels_equal src -> channels_equal (cv2.correlate border k norm src).
Proof.
  intros Hce. pose proof Hce as Hce'.
  unfold channels_equal in Hce'. rewrite Forall_lookup in Hce'.
  unfold channels_equal, cv2.correlate.
  apply Forall_lookup. intros y row' Hy. rewrite list_lookup_imap in Hy.
  destruct (src !! y) as [row|] eqn:Hrow; simplify_eq/=.
  specialize (Hce' _ _ Hrow). rewrite Forall_lookup in Hce'.
  apply Forall_lookup. intros x px' Hx. rewrite list_lookup_imap in Hx.
  destruct (row !! x) as [px|] eqn:Hpx; simplify_eq/=.
  destruct (Hce' _ _ Hpx) as [v ->]. simpl.
  rewrite (tap_sum_gray src y x 1), (tap_sum_gray src y x 2) by (done || lia).
  by eexists.
Qed.

End Cv2Facts.

Lemma filter2D_ref_shape src k dst H W C :
  cv2.filter2D src k = Ok dst -> has_shape H W C src -> has_shape H W C dst.
Proof.
  unfold cv2.filter2D. destruct (cv2.empty src || cv2.empty k); [done|].
  intros [= <-]. apply correlate_shape.
Qed.

Lemma filter2D_ref_channels src k dst :
  channels_equal src -> cv2.filter2D src k = Ok dst -> channels_equal dst.
Proof.
  unfold cv2.filter2D. destruct (cv2.empty src || cv2.empty k); [done|].
  intros Hce [= <-]. by apply correlate_channels_equal.
Qed.

Lemma GaussianBlur_ref_shape src ks sigma dst H W C :
  cv2.GaussianBlur src ks sigma = Ok dst ->
  has_shape H W C src -> has_shape H W C dst.
Proof.
  unfold cv2.GaussianBlur. destruct (cv2.empty src); [done|].
  destruct (_ && _); [|done]. intros [= <-]. apply correlate_shape.
Qed.

Lemma GaussianBlur_ref_uint8 src ks sigma dst :
  cv2.GaussianBlur src ks sigma = Ok dst -> all_uint8 dst.
Proof.
  unfold cv2.GaussianBlur. destruct (cv2.empty src); [done|].
  destruct (_ && _); [|done]. intros [= <-]. apply correlate_uint8.
Qed.

Lemma GaussianBlur_ref_channels src ks sigma dst :
  channels_equal src -> cv2.GaussianBlur src ks sigma = Ok dst ->
  channels_equal dst.
Proof.
  unfold cv2.GaussianBlur. destruct (cv2.empty src); [done|].
  destruct (_ && _); [|done]. intros Hce [= <-].
  by apply correlate_channels_equal.
Qed.

(** Without a usable sigma no kernel size can be derived from (0, 0): the
    size assertion fails. *)
Lemma GaussianBlur_ref_rejects src sigma :
  sigma <= 0 -> cv2.GaussianBlur src (0, 0) sigma = Raise cv2_error.
Proof.
  intros Hs. unfold cv2.GaussianBlur. destruct (cv2.empty src); [done|].
  unfold cv2.gaussian_ksize. simpl.
  destruct (Z.ltb_spec 0 sigma); [lia|]. done.
Qed.

(** ** Fusing element-wise operations *)

Lemma zip_with_zip_with_r {A B C D} (h : C -> B -> D) (f : A -> B -> C)
    (a : list A) (b : list B) :
  zip_with h (zip_with f a b) b = zip_with (fun x y => h (f x y) y) a b.
Proof. revert b. induction a as [|x a IH]; intros [|y b]; simpl; f_equal; auto. Qed.

Lemma fmap_zip_with {A B C D} (g : C -> D) (f : A -> B -> C)
    (a : list A) (b : list B) :
  g <$> zip_with f a b = zip_with (fun x y => g (f x y)) a b.
Proof. revert b. induction a as [|x a IH]; intros [|y b]; simpl; f_equal; auto. Qed.

Lemma map3_zip3 {A B C D} (g : C -> D) (f : A -> B -> C) (a : arr A) (b : arr B) :
  map3 g (zip3 f a b) = zip3 (fun x y => g (f x y)) a b.
Proof.
  unfold map3, zip3. rewrite fmap_zip_with.
  apply zip_with_ext; [|done..]. intros ra rb. rewrite fmap_zip_with.
  apply zip_with_ext; [|done..]. intros pa pb. apply fmap_zip_with.
Qed.

Lemma zip3_zip3_r {A B C D} (h : C -> B -> D) (f : A -> B -> C)
    (a : arr A) (b : arr B) :
  zip3 h (zip3 f a b) b = zip3 (fun x y => h (f x y) y) a b.
Proof.
  unfold zip3. rewrite zip_with_zip_with_r.
  apply zip_with_ext; [|done..]. intros ra rb. rewrite zip_with_zip_with_r.
  apply zip_with_ext; [|done..]. intros pa pb. apply zip_with_zip_with_r.
Qed.

(** The four array statements of [dodge] come to [dodge_px] on every
    element. *)
Lemma dodge_lines (f b : ndarray) :
  map3 np.astype_uint8
    (zip3 (fun r b => if b =? 255 then 255%float else r)
       (map3 (fun r => if (255 <? r)%float then 255%float else r)
          (zip3 (fun f b => (np.float64 b * 255 / (255 - np.float64 f))%float)
             f b))
       b)
  = PencilSketch.dodge f b.
Proof. by rewrite !map3_zip3, zip3_zip3_r. Qed.

(** ** The store *)

Section HeapFacts.
Import Heap.

Lemma unchanged_refl h : unchanged h h.
Proof. by intros l b. Qed.

Lemma unchanged_trans h1 h2 h3 :
  unchanged h1 h2 -> unchanged h2 h3 -> unchanged h1 h3.
Proof. intros H12 H23 l b Hl. by apply H23, H12. Qed.

Lemma fresh_not_allocated (h : heap) : h !! fresh (dom h) = None.
Proof. apply not_elem_of_dom, is_fresh. Qed.

Lemma unchanged_alloc (h : heap) b : unchanged h (<[fresh (dom h) := b]> h).
Proof.
  intros l b' Hl. rewrite lookup_insert_ne; [done|].
  intros <-. by rewrite fresh_not_allocated in Hl.
Qed.

(** Overwriting a buffer that [h0] does not have leaves [h0] as it was. *)
Lemma unchanged_overwrite (h0 h : heap) l b :
  h0 !! l = None -> unchanged h0 h -> unchanged h0 (<[l := b]> h).
Proof.
  intros Hl H0 l' b' Hl'. rewrite lookup_insert_ne; [by apply H0|].
  intros <-. by rewrite Hl in Hl'.
Qed.

Lemma computes_new_u8 r h : computes (new_u8 r) h r.
Proof.
  destruct r as [a|e]; unfold computes; simpl.
  - split; [apply unchanged_alloc|apply lookup_insert_eq].
  - split; [apply unchanged_refl|done].
Qed.

(** One step of a computation. *)
Lemma bind_load_u8 {A} (k : ndarray -> M A) h l a :
  h !! l = Some (U8 a) -> bind (load_u8 l) k h = k a h.
Proof. unfold bind, load_u8. by intros ->. Qed.

Lemma bind_load_f64 {A} (k : arr float -> M A) h l a :
  h !! l = Some (F64 a) -> bind (load_f64 l) k h = k a h.
Proof. unfold bind, load_f64. by intros ->. Qed.

Lemma bind_store {A} (k : unit -> M A) h l b b' :
  h !! l = Some b -> bind (store l b') k h = k tt (<[l := b']> h).
Proof. unfold bind, store. by intros ->. Qed.

Lemma bind_alloc {A} (k : loc -> M A) h b :
  bind (alloc b) k h = k (fresh (dom h)) (<[fresh (dom h) := b]> h).
Proof. done. Qed.

(** A load of a location that holds no uint8 buffer raises and leaves
    the store alone. *)
Lemma bind_load_u8_fails {A} (k : ndarray -> M A) h l :
  (forall a, h !! l <> Some (U8 a)) ->
  bind (load_u8 l) k h = (Raise ValueError, h).
Proof.
  unfold bind, load_u8. intros Hl.
  destruct (h !! l) as [[a|a]|]; try done. by destruct (Hl a).
Qed.

Lemma dodge_computes h front back f b :
  h !! front = Some (U8 f) -> h !! back = Some (U8 b) ->
  computes (dodge front back) h (Ok (PencilSketch.dodge f b)).
Proof.
  intros Hf Hb.
  assert (Hres : h !! fresh (dom h) = None) by apply fresh_not_allocated.
  assert (Hne : fresh (dom h) <> back)
    by (intros Heq; by rewrite Heq, Hb in Hres).
  unfold computes, dodge.
  rewrite (bind_load_u8 _ _ _ _ Hf), (bind_load_u8 _ _ _ _ Hb), bind_alloc.
  rewrite (bind_load_f64 _ _ _ _ (lookup_insert_eq _ _ _)).
  rewrite (bind_store _ _ _ _ _ (lookup_insert_eq _ _ _)), insert_insert_eq.
  rewrite (bind_load_f64 _ _ _ _ (lookup_insert_eq _ _ _)).
  rewrite (bind_load_u8 _ _ back b)
    by (rewrite lookup_insert_ne; [exact Hb|exact Hne]).
  rewrite (bind_store _ _ _ _ _ (lookup_insert_eq _ _ _)), insert_insert_eq.
  rewrite (bind_load_f64 _ _ _ _ (lookup_insert_eq _ _ _)).
  unfold alloc. cbv zeta. simpl fst. simpl snd. rewrite dodge_lines. split.
  - eapply unchanged_trans; [|apply unchanged_alloc].
    apply unchanged_overwrite; [done|apply unchanged_refl].
  - apply lookup_insert_eq.
Qed.

Section Pipeline.
Variable GaussianBlur : ndarray -> Z * Z -> Z -> res ndarray.
Variable filter2D : ndarray -> kernel_t -> res ndarray.

Lemma computes_bind (m : M loc) (k : loc -> M loc) h v
    (kv : ndarray -> res ndarray) :
  computes m h v ->
  (forall l a h', unchanged h h' -> h' !! l = Some (U8 a) ->
                  computes (k l) h' (kv a)) ->
  computes (bind m k) h (res_bind v kv).
Proof.
  unfold computes, bind. intros [Hun Hm] Hk.
  destruct (m h) as [[l|e] h'] eqn:Hrun; simpl in *.
  - destruct v as [a|e']; [|done]. simpl.
    destruct (Hk l a h' Hun Hm) as [Hun' Hk'].
    split; [by eapply unchanged_trans|done].
  - destruct v as [a|e']; [done|]. simpl. done.
Qed.

Lemma grayscale_computes h frame f :
  h !! frame = Some (U8 f) ->
  computes (grayscale frame) h (PencilSketch.grayscale f).
Proof.
  intros Hf. unfold computes, grayscale.
  rewrite (bind_load_u8 _ _ _ _ Hf). apply computes_new_u8.
Qed.

Lemma invert_blur_computes h self g a :
  h !! g = Some (U8 a) ->
  computes (invert_blur GaussianBlur self g) h
    (GaussianBlur (map3 np.rsub255 a) (PencilSketch.ksize self)
       (PencilSketch.blur_simga self)).
Proof.
  intros Hg. unfold computes, invert_blur.
  rewrite (bind_load_u8 _ _ _ _ Hg), bind_alloc.
  rewrite (bind_load_u8 _ _ _ _ (lookup_insert_eq _ _ _)).
  destruct (computes_new_u8
    (GaussianBlur (map3 np.rsub255 a) (PencilSketch.ksize self)
       (PencilSketch.blur_simga self))
    (<[fresh (dom h) := U8 (map3 np.rsub255 a)]> h)) as [Hun Hv].
  split; [|exact Hv].
  eapply unchanged_trans; [apply unchanged_alloc|exact Hun].
Qed.

Lemma sharpen_computes h self image a :
  h !! image = Some (U8 a) ->
  computes (sharpen filter2D self image) h
    (PencilSketch.sharpen filter2D self a).
Proof.
  intros Ha. unfold computes, sharpen, PencilSketch.sharpen.
  destruct (PencilSketch.sharpen_value self) as [v|].
  2:{ simpl. split; [apply unchanged_refl|done]. }
  rewrite (bind_load_u8 _ _ _ _ Ha), bind_alloc.
  rewrite (bind_load_u8 _ _ _ _ (lookup_insert_eq _ _ _)).
  set (h1 := <[fresh (dom h) := U8 (map3 np.rsub255 a)]> h).
  assert (H1 : unchanged h h1) by apply unchanged_alloc.
  destruct (PencilSketch.kernel self) as [k|].
  2:{ simpl. split; [exact H1|done]. }
  destruct (filter2D (map3 np.rsub255 a) k) as [flt|e]; simpl.
  - unfold new_u8. rewrite bind_alloc.
    rewrite (bind_load_u8 _ _ _ _ (lookup_insert_eq _ _ _)).
    unfold alloc. simpl. split; [|apply lookup_insert_eq].
    eapply unchanged_trans; [exact H1|].
    eapply unchanged_trans; apply unchanged_alloc.
  - split; [exact H1|done].
Qed.

Lemma call_computes h self frame f :
  h !! frame = Some (U8 f) ->
  computes (__call__ GaussianBlur filter2D self frame) h
    (PencilSketch.__call__ GaussianBlur filter2D self f).
Proof.
  intros Hf. unfold __call__, PencilSketch.__call__,
    PencilSketch.dodge_pipeline.
  rewrite res_bind_assoc.
  apply computes_bind; [by apply grayscale_computes|].
  intros g gray h1 Hun1 Hg. rewrite res_bind_assoc.
  apply computes_bind; [by apply invert_blur_computes|].
  intros bl blur h2 Hun2 Hbl.
  apply computes_bind.
  - apply dodge_computes; [exact Hbl|by apply Hun2].
  - intros fl final h3 Hun3 Hfl. by apply sharpen_computes.
Qed.

End Pipeline.

End HeapFacts.

(** Every stage is frame preserving, whatever it is given: a location that
    holds no uint8 buffer makes the first load raise. *)
Section FramePreservation.
Import Heap.
Variable GaussianBlur : ndarray -> Z * Z -> Z -> res ndarray.
Variable filter2D : ndarray -> kernel_t -> res ndarray.

Lemma holds_u8_dec (h : heap) l :
  (exists a, h !! l = Some (U8 a)) \/ (forall a, h !! l <> Some (U8 a)).
Proof. destruct (h !! l) as [[a|a]|]; eauto. Qed.

Lemma dodge_frame front back : frame_preserving (dodge front back).
Proof.
  intros h. destruct (holds_u8_dec h front) as [[f Hf]|Hf].
  - destruct (holds_u8_dec h back) as [[b Hb]|Hb].
    + by destruct (dodge_computes h front back f b Hf Hb).
    + unfold dodge. rewrite (bind_load_u8 _ _ _ _ Hf).
      rewrite (bind_load_u8_fails _ _ _ Hb). apply unchanged_refl.
  - unfold dodge. rewrite (bind_load_u8_fails _ _ _ Hf). apply unchanged_refl.
Qed.

Lemma sharpen_frame self image : frame_preserving (sharpen filter2D self image).
Proof.
  intros h. destruct (holds_u8_dec h image) as [[a Ha]|Ha].
  - by destruct (sharpen_computes filter2D h self image a Ha).
  - unfold sharpen. destruct (PencilSketch.sharpen_value self).
    + rewrite (bind_load_u8_fails _ _ _ Ha). apply unchanged_refl.
    + apply unchanged_refl.
Qed.

Lemma grayscale_frame frame : frame_preserving (grayscale frame).
Proof.
  intros h. destruct (holds_u8_dec h frame) as [[a Ha]|Ha].
  - by destruct (grayscale_computes h frame a Ha).
  - unfold grayscale. rewrite (bind_load_u8_fails _ _ _ Ha).
    apply unchanged_refl.
Qed.

Lemma invert_blur_frame self g :
  frame_preserving (invert_blur GaussianBlur self g).
Proof.
  intros h. destruct (holds_u8_dec h g) as [[a Ha]|Ha].
  - by destruct (invert_blur_computes GaussianBlur h self g a Ha).
  - unfold invert_blur. rewrite (bind_load_u8_fails _ _ _ Ha).
    apply unchanged_refl.
Qed.

(** An assignment into a buffer of the store is seen: the property is not
    one that every computation has. *)
Lemma store_is_not_frame_preserving :
  ~ frame_preserving (store 1%positive (U8 [])).
Proof.
  intros Hfp.
  specialize (Hfp {[ 1%positive := U8 [[[0]]] ]} 1%positive (U8 [[[0]]])).
  unfold store in Hfp. rewrite lookup_singleton_eq in Hfp. simpl in Hfp.
  rewrite lookup_insert_eq in Hfp. by specialize (Hfp eq_refl).
Qed.

Lemma bind_frame {A B} (m : M A) (k : A -> M B) :
  frame_preserving m -> (forall a, frame_preserving (k a)) ->
  frame_preserving (bind m k).
Proof.
  intros Hm Hk h. unfold bind. specialize (Hm h).
  destruct (m h) as [[a|e] h']; simpl in *; [|done].
  eapply unchanged_trans; [exact Hm|apply Hk].
Qed.

Lemma call_frame self frame :
  frame_preserving (__call__ GaussianBlur filter2D self frame).
Proof.
  unfold __call__.
  apply bind_frame; [apply grayscale_frame|]. intros g.
  apply bind_frame; [apply invert_blur_frame|]. intros bl.
  apply bind_frame; [apply dodge_frame|]. intros fl.
  apply sharpen_frame.
Qed.

End FramePreservation.

(** * The stages and the pipeline *)

Section Claims.
Import PencilSketch.

Lemma pixel_at_fmap {A B} (g : list A -> list B) (a : arr A) y x :
  pixel_at (fmap (M := list) (fmap (M := list) g) a) y x
    = g <$> pixel_at a y x.
Proof.
  unfold pixel_at. rewrite list_lookup_fmap.
  destruct (a !! y) as [row|]; simpl; [|done]. by rewrite list_lookup_fmap.
Qed.

(** ** dodge *)

(** C1 (the code departs from it): a zero denominator under a black back
    sample is 0/0.  The value of [result] there is nan, the test
    [result > 255] is false on nan, so the element is not set to 255; the
    cast stores 0.  An all-black frame reaches this case: with a blur that
    keeps the flat white field, the pipeline returns black. *)
Theorem dodge_zero_over_zero_is_not_saturated :
  PrimFloat.is_nan (dodge_float 255 0) = true /\
  dodge_px 255 0 = 0 /\
  dodge (flat 1 1 255) (flat 1 1 0) = flat 1 1 0 /\
  __call__ cv2.GaussianBlur cv2.filter2D (mk 5 (0, 0) None None) (flat 2 2 0)
    = Ok (flat 2 2 0).
Proof. split; [|split; [|split]]; vm_compute; reflexivity. Qed.

(** C6: where the back (grayscale) sample is 255 the dodge output is 255,
    whatever the front sample is. *)
Theorem dodge_identity_at_white (front back : ndarray) y x c f :
  at3 back y x c = Some 255 ->
  at3 front y x c = Some f ->
  at3 (dodge front back) y x c = Some 255.
Proof.
  intros Hb Hf. unfold dodge.
  rewrite (at3_zip3 dodge_px front back y x c f 255 Hf Hb).
  by rewrite dodge_px_white.
Qed.

Lemma dodge_identity_at_white_witness :
  at3 (dodge [[[255; 0; 17]]] [[[255; 255; 255]]]) 0 0 1 = Some 255.
Proof.
  apply (dodge_identity_at_white [[[255; 0; 17]]] [[[255; 255; 255]]]
           0 0 1 0); reflexivity.
Defined.

(** ** grayscale *)

(** C4 (as the code has it): for a pixel with uint8 channels, the
    grayscale stage takes the first three channels in stored order c0, c1,
    c2 (further channels are ignored), accumulates 0.299 c0 + 0.587 c1 +
    0.114 c2 in float64 with one rounding per multiply-add, drops the
    fraction and stores the value in all three output channels.  The value
    stored is the integer part of the exact weighted sum or one less, and it
    is the integer part whenever the exact sum is not an integer. *)
Theorem grayscale_luma_fused_truncated_replicated frame y x c0 c1 c2 alpha :
  dot_aligned frame = true ->
  pixel_at frame y x = Some (c0 :: c1 :: c2 :: alpha) ->
  is_uint8 c0 -> is_uint8 c1 -> is_uint8 c2 ->
  exists gray l,
    grayscale frame = Ok gray /\
    pixel_at gray y x = Some [l; l; l] /\
    l = np.cast_uint8 (np.dot3 c0 c1 c2) /\
    luma_exact c0 c1 c2 - 1 <= l <= luma_exact c0 c1 c2 /\
    ((299 * c0 + 587 * c1 + 114 * c2) mod 1000 <> 0 ->
     l = luma_exact c0 c1 c2).
Proof.
  intros Hal Hpx U0 U1 U2. unfold grayscale. rewrite Hal.
  eexists. exists (luma c0 c1 c2). split; [reflexivity|].
  split; [by rewrite pixel_at_fmap, Hpx|].
  split; [reflexivity|]. by apply luma_bounds.
Qed.

Lemma grayscale_luma_fused_truncated_replicated_witness :
  exists gray l,
    grayscale [[[255; 255; 254; 7]]] = Ok gray /\
    pixel_at gray 0 0 = Some [l; l; l] /\
    l = np.cast_uint8 (np.dot3 255 255 254) /\
    luma_exact 255 255 254 - 1 <= l <= luma_exact 255 255 254 /\
    ((299 * 255 + 587 * 255 + 114 * 254) mod 1000 <> 0 ->
     l = luma_exact 255 255 254).
Proof.
  apply (grayscale_luma_fused_truncated_replicated [[[255; 255; 254; 7]]]
           0 0 255 255 254 [7]);
    first [reflexivity | unfold is_uint8; lia].
Defined.

(** A pure-white pixel is stored as 254, where the integer part of the
    exact sum 0.299 * 255 + 0.587 * 255 + 0.114 * 255 = 255 is 255: the
    float64 sum is just below 255.  The weights go by position: a pixel
    with only channel 0 set gets 0.299 of it, one with only channel 2 set
    gets 0.114 of it. *)
Lemma white_pixel_is_stored_as_254 :
  grayscale [[[255; 255; 255]]] = Ok [[[254; 254; 254]]] /\
  luma_exact 255 255 255 = 255 /\
  grayscale [[[255; 0; 0]]] = Ok [[[76; 76; 76]]] /\
  grayscale [[[0; 0; 255]]] = Ok [[[29; 29; 29]]].
Proof. split; [|split; [|split]]; vm_compute; reflexivity. Qed.

(** The sum for (255, 255, 254) is 254.886: the cast gives 254, not the
    nearest integer.  The sum for (1, 1, 1) is just below 1 in float64: the
    cast gives 0. *)
Lemma luma_examples :
  luma 255 255 254 = 254 /\ luma 1 1 1 = 0 /\ luma 200 200 200 = 200.
Proof. split; [|split]; vm_compute; reflexivity. Qed.

(** ** The constructor *)

(** C3 (as the code has it): the constructor validates nothing.  It
    returns an object that holds the blur parameters as given, also for
    sigma <= 0 with size (0, 0), and the kernel as given, whatever its
    shape.  When the blur routine rejects sigma with size (0, 0), it is
    the call on a frame that raises. *)
Theorem init_accepts_and_the_call_raises
    (GaussianBlur : ndarray -> Z * Z -> Z -> res ndarray)
    (filter2D : ndarray -> kernel_t -> res ndarray)
    sigma sharpen_value k frame :
  (forall src, GaussianBlur src (0, 0) sigma = Raise cv2_error) ->
  dot_aligned frame = true ->
  exists self,
    __init__ sigma (0, 0) sharpen_value k = Ok self /\
    blur_simga self = sigma /\ ksize self = (0, 0) /\
    PencilSketch.sharpen_value self = sharpen_value /\
    (forall custom, k = Some custom -> kernel self = Some custom) /\
    __call__ GaussianBlur filter2D self frame = Raise cv2_error.
Proof.
  intros Hrej Hal. eexists. split; [reflexivity|]. simpl.
  repeat split.
  - by intros custom ->.
  - unfold __call__, dodge_pipeline, grayscale. rewrite Hal. simpl.
    by rewrite Hrej.
Qed.

Lemma init_accepts_and_the_call_raises_witness :
  exists self,
    __init__ 0 (0, 0) (Some 10) (Some [[1; 2]]) = Ok self /\
    blur_simga self = 0 /\ ksize self = (0, 0) /\
    PencilSketch.sharpen_value self = Some 10 /\
    (forall custom, Some [[1; 2]] = Some custom -> kernel self = Some custom) /\
    __call__ cv2.GaussianBlur cv2.filter2D self (flat 2 2 200)
      = Raise cv2_error.
Proof.
  apply (init_accepts_and_the_call_raises cv2.GaussianBlur cv2.filter2D
           0 (Some 10) (Some [[1; 2]]) (flat 2 2 200)).
  - intros src. apply GaussianBlur_ref_rejects. lia.
  - reflexivity.
Defined.

(** Construction with sigma <= 0 and size (0, 0), and with a kernel that
    is neither square nor odd-sized, returns an object. *)
Lemma init_does_not_raise :
  __init__ 0 (0, 0) None None = Ok (mk 0 (0, 0) None None) /\
  __init__ (-1) (0, 0) (Some 10) (Some [[1; 2]])
    = Ok (mk (-1) (0, 0) (Some 10) (Some [[1; 2]])) /\
  (forall e, __init__ 0 (0, 0) None None <> Raise e) /\
  (forall e, __init__ (-1) (0, 0) (Some 10) (Some [[1; 2]]) <> Raise e).
Proof. repeat split; done. Qed.

End Claims.

Section PipelineClaims.
Import PencilSketch.

Variable GaussianBlur : ndarray -> Z * Z -> Z -> res ndarray.
Variable filter2D : ndarray -> kernel_t -> res ndarray.

(** ** sharpen *)

(** C2 (as the code has it): the sharpen stage is gated by the sharpen
    value alone.  With a sharpen value it inverts, filters with the stored
    kernel (the custom one if given, else the default one) and inverts
    again.  Without a sharpen value it returns its input unchanged,
    whether or not a custom kernel is configured, and the pipeline is the
    dodge-blend pipeline. *)
Theorem sharpen_gated_by_sharpen_value sigma ks sv k self image frame :
  __init__ sigma ks sv k = Ok self ->
  (sv = None ->
     sharpen filter2D self image = Ok image /\
     __call__ GaussianBlur filter2D self frame
       = dodge_pipeline GaussianBlur self frame) /\
  (forall v, sv = Some v ->
     sharpen filter2D self image =
       let* filtered := filter2D (map3 np.rsub255 image)
                          (default (default_kernel v) k) in
       Ok (map3 np.rsub255 filtered)).
Proof.
  intros [= <-]. split.
  - intros ->. split; [reflexivity|].
    unfold __call__, sharpen. simpl. apply res_bind_ret.
  - intros v ->. unfold sharpen. simpl. by destruct k.
Qed.

(** ** The pipeline *)

(** C7: a 4x4 frame of (200, 200, 200) with sigma 5, size (0, 0) and no
    sharpen value gives a 4x4x3 buffer of 255, the blur returning the
    flat field of 55 it is given. *)
Theorem flat_gray_200_gives_white self :
  GaussianBlur (flat 4 4 55) (0, 0) 5 = Ok (flat 4 4 55) ->
  __init__ 5 (0, 0) None None = Ok self ->
  __call__ GaussianBlur filter2D self (flat 4 4 200) = Ok (flat 4 4 255).
Proof.
  intros Hblur [= <-].
  assert (Hg : grayscale (flat 4 4 200) = Ok (flat 4 4 200))
    by (vm_compute; reflexivity).
  assert (Hi : map3 np.rsub255 (flat 4 4 200) = flat 4 4 55)
    by (vm_compute; reflexivity).
  assert (Hd : dodge (flat 4 4 55) (flat 4 4 200) = flat 4 4 255)
    by (vm_compute; reflexivity).
  unfold __call__, dodge_pipeline. rewrite Hg. cbn [res_bind].
  rewrite Hi. cbn [ksize blur_simga]. rewrite Hblur. cbn [res_bind].
  rewrite Hd. reflexivity.
Qed.

(** C8: for a frame of shape (H, W, C) with C >= 3 and any configuration,
    the grayscale stage returns a buffer of shape (H, W, 3), and the buffer
    the pipeline returns has shape (H, W, 3) and uint8 samples, the two cv2
    routines returning buffers of the shape of their source. *)
Theorem call_output_shape self frame H W C :
  (forall src ks s dst h w, GaussianBlur src ks s = Ok dst ->
      has_shape h w 3 src -> has_shape h w 3 dst) ->
  (forall src k dst h w, filter2D src k = Ok dst ->
      has_shape h w 3 src -> has_shape h w 3 dst) ->
  has_shape H W C frame -> (3 <= C)%nat ->
  (exists gray, grayscale frame = Ok gray /\ has_shape H W 3 gray) /\
  (forall out, __call__ GaussianBlur filter2D self frame = Ok out ->
     has_shape H W 3 out /\ all_uint8 out).
Proof.
  intros HGB HF Hshape HC. split.
  { pose proof (has_shape_dot_aligned frame H W C Hshape HC) as Hal.
    unfold grayscale. rewrite Hal. eexists. split; [reflexivity|].
    eapply grayscale_shape; [exact Hshape|].
    unfold grayscale. by rewrite Hal. }
  intros out Hcall. unfold __call__ in Hcall.
  apply res_bind_Ok in Hcall as (final & Hdp & Hsh).
  unfold dodge_pipeline in Hdp.
  apply res_bind_Ok in Hdp as (gray & Hg & Hdp).
  apply res_bind_Ok in Hdp as (blur & Hb & [= <-]).
  assert (Hgs : has_shape H W 3 gray) by (by eapply grayscale_shape).
  assert (Hbs : has_shape H W 3 blur).
  { eapply HGB; [exact Hb|]. by apply has_shape_map3. }
  assert (Hfs : has_shape H W 3 (dodge blur gray))
    by (by apply has_shape_zip3).
  assert (Hfu : all_uint8 (dodge blur gray)).
  { apply all_uint8_zip3. intros u v. apply astype_uint8_range. }
  unfold sharpen in Hsh. destruct (sharpen_value self).
  - destruct (kernel self) as [k|]; [|done].
    apply res_bind_Ok in Hsh as (filtered & Hflt & [= <-]). split.
    + apply has_shape_map3. eapply HF; [exact Hflt|].
      by apply has_shape_map3.
    + apply all_uint8_map3, rsub255_range.
  - by injection Hsh as <-.
Qed.

(** C10: every pixel of the buffer the pipeline returns has its three
    channels equal, the two cv2 routines treating the channels alike. *)
Theorem call_output_channels_equal self frame out :
  (forall src ks s dst, channels_equal src ->
      GaussianBlur src ks s = Ok dst -> channels_equal dst) ->
  (forall src k dst, channels_equal src ->
      filter2D src k = Ok dst -> channels_equal dst) ->
  __call__ GaussianBlur filter2D self frame = Ok out ->
  channels_equal out.
Proof.
  intros HGB HF Hcall. unfold __call__ in Hcall.
  apply res_bind_Ok in Hcall as (final & Hdp & Hsh).
  unfold dodge_pipeline in Hdp.
  apply res_bind_Ok in Hdp as (gray & Hg & Hdp).
  apply res_bind_Ok in Hdp as (blur & Hb & [= <-]).
  assert (Hgc : channels_equal gray) by (by eapply grayscale_channels_equal).
  assert (Hbc : channels_equal blur).
  { eapply HGB; [|exact Hb]. by apply channels_equal_map3. }
  assert (Hfc : channels_equal (dodge blur gray))
    by (by apply channels_equal_zip3).
  unfold sharpen in Hsh. destruct (sharpen_value self).
  - destruct (kernel self) as [k|]; [|done].
    apply res_bind_Ok in Hsh as (filtered & Hflt & [= <-]).
    apply channels_equal_map3. eapply HF; [|exact Hflt].
    by apply channels_equal_map3.
  - by injection Hsh as <-.
Qed.

(** C9: no stage writes to a buffer it is given.  Run from any store, the
    pipeline and each of its stages leave every buffer of that store, the
    input frame among them, with the contents it had. *)
Theorem no_stage_mutates_its_input self :
  (forall frame,
      Heap.frame_preserving (Heap.__call__ GaussianBlur filter2D self frame)) /\
  (forall frame, Heap.frame_preserving (Heap.grayscale frame)) /\
  (forall gray,
      Heap.frame_preserving (Heap.invert_blur GaussianBlur self gray)) /\
  (forall front back, Heap.frame_preserving (Heap.dodge front back)) /\
  (forall image,
      Heap.frame_preserving (Heap.sharpen filter2D self image)).
Proof.
  split; [apply call_frame|]. split; [apply grayscale_frame|].
  split; [apply invert_blur_frame|]. split; [apply dodge_frame|].
  apply sharpen_frame.
Qed.

End PipelineClaims.

(** ** Borders *)

(** C5 (as the library has it): the two cv2 calls pass no border type, so
    borders are extrapolated with [BORDER_DEFAULT], which reflects about
    the edge sample without repeating it: the virtual index -k stands for
    index k (so -1 for index 1), and len - 1 + k for len - 1 - k. *)
Theorem border_reflects_about_the_edge_sample len k :
  1 <= k < len ->
  cv2.borderInterpolate (- k) len cv2.BORDER_DEFAULT = k /\
  cv2.borderInterpolate (len - 1 + k) len cv2.BORDER_DEFAULT = len - 1 - k.
Proof.
  intros Hk. split; [by apply reflect_101_left|by apply reflect_101_right].
Qed.

Lemma border_reflects_about_the_edge_sample_witness :
  cv2.borderInterpolate (- 1) 4 cv2.BORDER_DEFAULT = 1 /\
  cv2.borderInterpolate (4 - 1 + 1) 4 cv2.BORDER_DEFAULT = 4 - 1 - 1.
Proof. apply (border_reflects_about_the_edge_sample 4 1). lia. Defined.

(** The virtual index -1 does not stand for index 0: the sharpen stage
    with the kernel [[1, 0, 0]], which reads the left neighbour, puts at
    column 0 the sample of column 1. *)
Lemma border_minus_one_is_not_index_zero :
  cv2.borderInterpolate (- 1) 3 cv2.BORDER_DEFAULT = 1 /\
  cv2.borderInterpolate (- 1) 3 cv2.BORDER_DEFAULT <> 0 /\
  PencilSketch.sharpen cv2.filter2D
    (PencilSketch.mk 5 (0, 0) (Some 0) (Some [[1; 0; 0]]))
    [[[10; 10; 10]; [20; 20; 20]; [30; 30; 30]]]
  = Ok [[[20; 20; 20]; [10; 10; 10]; [20; 20; 20]]].
Proof. split; [|split]; [vm_compute; reflexivity|done|vm_compute; reflexivity]. Qed.

(** ** Instances on the reference model *)

Lemma sharpen_gated_by_sharpen_value_witness :
  PencilSketch.sharpen cv2.filter2D
    (PencilSketch.mk 5 (0, 0) None (Some [[2]])) (flat 1 1 200)
    = Ok (flat 1 1 200) /\
  PencilSketch.__call__ cv2.GaussianBlur cv2.filter2D
    (PencilSketch.mk 5 (0, 0) None (Some [[2]])) (flat 1 1 200)
    = PencilSketch.dodge_pipeline cv2.GaussianBlur
        (PencilSketch.mk 5 (0, 0) None (Some [[2]])) (flat 1 1 200).
Proof.
  apply (sharpen_gated_by_sharpen_value cv2.GaussianBlur cv2.filter2D
           5 (0, 0) None (Some [[2]])); reflexivity.
Defined.

(** A custom kernel alone does not switch the stage on: the input comes
    back unchanged, while the stage run with the same kernel changes it. *)
Lemma custom_kernel_alone_is_ignored :
  PencilSketch.__init__ 5 (0, 0) None (Some [[2]])
    = Ok (PencilSketch.mk 5 (0, 0) None (Some [[2]])) /\
  PencilSketch.sharpen cv2.filter2D
    (PencilSketch.mk 5 (0, 0) None (Some [[2]])) (flat 1 1 200)
    = Ok (flat 1 1 200) /\
  PencilSketch.sharpen cv2.filter2D
    (PencilSketch.mk 5 (0, 0) (Some 2) (Some [[2]])) (flat 1 1 200)
    = Ok (flat 1 1 145).
Proof. split; [|split]; vm_compute; reflexivity. Qed.

Lemma flat_gray_200_gives_white_witness :
  PencilSketch.__call__ cv2.GaussianBlur cv2.filter2D
    (PencilSketch.mk 5 (0, 0) None None) (flat 4 4 200) = Ok (flat 4 4 255).
Proof.
  apply (flat_gray_200_gives_white cv2.GaussianBlur cv2.filter2D).
  - vm_compute. reflexivity.
  - reflexivity.
Defined.

Lemma call_output_shape_witness :
  has_shape 2 2 3 sketch_2x2 /\ all_uint8 sketch_2x2.
Proof.
  refine (proj2 (call_output_shape cv2.GaussianBlur cv2.filter2D
                   (PencilSketch.mk 5 (3, 3) (Some 10)
                      (Some (PencilSketch.default_kernel 10)))
                   frame_2x2x4 2 2 4 _ _ _ _) sketch_2x2 _).
  - intros src ks s dst h w. apply GaussianBlur_ref_shape.
  - intros src k dst h w. apply filter2D_ref_shape.
  - split; [reflexivity|]. repeat constructor.
  - lia.
  - vm_compute. reflexivity.
Defined.

Lemma call_output_channels_equal_witness : channels_equal sketch_2x2.
Proof.
  apply (call_output_channels_equal cv2.GaussianBlur cv2.filter2D
           (PencilSketch.mk 5 (3, 3) (Some 10)
              (Some (PencilSketch.default_kernel 10)))
           frame_2x2x4 sketch_2x2).
  - intros src ks s dst. apply GaussianBlur_ref_channels.
  - intros src k dst. apply filter2D_ref_channels.
  - vm_compute. reflexivity.
Defined.

(** * Further properties *)

(** ** dodge on uint8 operands *)

Lemma rsub255_uint8 v : is_uint8 v -> np.rsub255 v = 255 - v.
Proof. unfold is_uint8, np.rsub255. intros Hv. apply Z.mod_small. lia. Qed.

Lemma dodge_int_below_white f b :
  is_uint8 f -> is_uint8 b -> f < 255 ->
  dodge_int f b = Z.min 255 (b * 255 / (255 - f)).
Proof.
  unfold is_uint8, dodge_int. intros Hf Hb Hlt.
  destruct (Z.eqb_spec b 255) as [->|Hb255].
  - symmetry. apply Z.min_l. apply Z.div_le_lower_bound; lia.
  - destruct (Z.eqb_spec f 255); [lia|done].
Qed.

Lemma dodge_int_lower f b : is_uint8 f -> is_uint8 b -> b <= dodge_int f b <= 255.
Proof.
  unfold is_uint8, dodge_int. intros Hf Hb.
  destruct (Z.eqb_spec b 255); [lia|].
  destruct (Z.eqb_spec f 255).
  - destruct (Z.eqb_spec b 0); lia.
  - assert (b <= b * 255 / (255 - f)) by (apply Z.div_le_lower_bound; nia).
    lia.
Qed.

Lemma dodge_int_mono f b f' b' :
  is_uint8 f -> is_uint8 b -> is_uint8 f' -> is_uint8 b' ->
  f <= f' -> b <= b' -> dodge_int f b <= dodge_int f' b'.
Proof.
  intros Hf Hb Hf' Hb' Hff Hbb.
  pose proof (dodge_int_lower f b Hf Hb) as Hlo.
  pose proof (dodge_int_lower f' b' Hf' Hb') as Hlo'.
  unfold is_uint8 in *. unfold dodge_int in *.
  destruct (Z.eqb_spec b' 255); [lia|].
  destruct (Z.eqb_spec b 255); [lia|].
  destruct (Z.eqb_spec f' 255).
  - destruct (Z.eqb_spec b' 0).
    + assert (b = 0) as -> by lia.
      destruct (Z.eqb_spec f 255); [done|].
      rewrite Z.mul_0_l, Z.div_0_l by lia. lia.
    + lia.
  - destruct (Z.eqb_spec f 255); [lia|].
    apply Z.min_le_compat_l.
    transitivity (b' * 255 / (255 - f)).
    + apply Z.div_le_mono; lia.
    + apply Z.div_le_compat_l; lia.
Qed.

Section DodgeProperties.
Import PencilSketch.
Variables front back : ndarray.
Variables y x c : nat.

(** X1: on uint8 operands with front < 255, the floating-point dodge
    equals the integer quotient back * 255 / (255 - front), truncated, and
    capped at 255. *)
Theorem dodge_is_the_capped_quotient f b :
  at3 front y x c = Some f -> at3 back y x c = Some b ->
  is_uint8 f -> is_uint8 b -> f < 255 ->
  at3 (dodge front back) y x c = Some (Z.min 255 (b * 255 / (255 - f))).
Proof.
  intros Hf Hb Uf Ub Hlt. unfold dodge.
  rewrite (at3_zip3 dodge_px front back y x c f b Hf Hb).
  by rewrite dodge_px_int, dodge_int_below_white.
Qed.

(** X2: with a positive back sample the blend saturates: where front is
    255 (zero denominator) or the quotient exceeds 255, the output is
    255. *)
Theorem dodge_saturates_on_positive_back f b :
  at3 front y x c = Some f -> at3 back y x c = Some b ->
  is_uint8 f -> is_uint8 b -> 0 < b ->
  f = 255 \/ 255 * (255 - f) < b * 255 ->
  at3 (dodge front back) y x c = Some 255.
Proof.
  intros Hf Hb Uf Ub Hpos Hsat. unfold dodge.
  rewrite (at3_zip3 dodge_px front back y x c f b Hf Hb).
  by rewrite dodge_saturates.
Qed.

(** X3: the blend never darkens: the output sample is at least the back
    sample (and at most 255). *)
Theorem dodge_never_darkens f b :
  at3 front y x c = Some f -> at3 back y x c = Some b ->
  is_uint8 f -> is_uint8 b ->
  exists d, at3 (dodge front back) y x c = Some d /\ b <= d <= 255.
Proof.
  intros Hf Hb Uf Ub. exists (dodge_px f b). split.
  - unfold dodge. by rewrite (at3_zip3 dodge_px front back y x c f b Hf Hb).
  - rewrite dodge_px_int by done. by apply dodge_int_lower.
Qed.

(** X4: a black front changes nothing: where front is 0 the output is the
    back sample. *)
Theorem dodge_with_black_front_is_identity b :
  at3 front y x c = Some 0 -> at3 back y x c = Some b -> is_uint8 b ->
  at3 (dodge front back) y x c = Some b.
Proof.
  intros Hf Hb Ub. unfold dodge.
  rewrite (at3_zip3 dodge_px front back y x c 0 b Hf Hb).
  rewrite dodge_px_int by (done || (unfold is_uint8; lia)).
  rewrite dodge_int_below_white by (done || (unfold is_uint8; lia)).
  unfold is_uint8 in Ub. f_equal.
  replace (255 - 0) with 255 by lia. rewrite Z.div_mul by lia. lia.
Qed.

End DodgeProperties.

(** X5: the blend is monotone: raising the front or the back sample never
    lowers the output. *)
Theorem dodge_is_monotone (front back front' back' : ndarray) y x c f b f' b' :
  at3 front y x c = Some f -> at3 back y x c = Some b ->
  at3 front' y x c = Some f' -> at3 back' y x c = Some b' ->
  is_uint8 f -> is_uint8 b -> is_uint8 f' -> is_uint8 b' ->
  f <= f' -> b <= b' ->
  exists d d',
    at3 (PencilSketch.dodge front back) y x c = Some d /\
    at3 (PencilSketch.dodge front' back') y x c = Some d' /\ d <= d'.
Proof.
  intros Hf Hb Hf' Hb' Uf Ub Uf' Ub' Hff Hbb.
  exists (PencilSketch.dodge_px f b), (PencilSketch.dodge_px f' b').
  unfold PencilSketch.dodge.
  rewrite (at3_zip3 _ front back y x c f b Hf Hb).
  rewrite (at3_zip3 _ front' back' y x c f' b' Hf' Hb').
  split; [done|]. split; [done|].
  rewrite !dodge_px_int by done. by apply dodge_int_mono.
Qed.

(** ** Frames of one colour *)

Lemma forallb_replicate {A} (P : A -> bool) n a :
  P a = true -> forallb P (replicate n a) = true.
Proof. intros Ha. induction n as [|n IH]; simpl; [done|]. by rewrite Ha, IH. Qed.

Lemma map3_flat (f : Z -> Z) H W v : map3 f (flat H W v) = flat H W (f v).
Proof. unfold map3, flat. by rewrite !fmap_replicate. Qed.

Lemma zip3_flat (f : Z -> Z -> Z) H W u v :
  zip3 f (flat H W u) (flat H W v) = flat H W (f u v).
Proof. unfold zip3, flat. by rewrite !zip_with_replicate. Qed.

Lemma grayscale_solid H W c0 c1 c2 alpha :
  PencilSketch.grayscale (solid H W (c0 :: c1 :: c2 :: alpha))
    = Ok (flat H W (PencilSketch.luma c0 c1 c2)).
Proof.
  unfold PencilSketch.grayscale, PencilSketch.dot_aligned, solid.
  rewrite forallb_replicate; [|by apply forallb_replicate].
  by rewrite !fmap_replicate.
Qed.

Lemma dodge_px_of_inverse l :
  is_uint8 l -> 0 < l -> PencilSketch.dodge_px (255 - l) l = 255.
Proof.
  intros Ul Hpos.
  rewrite dodge_px_int by (done || (unfold is_uint8 in *; lia)).
  unfold dodge_int, is_uint8 in *.
  destruct (Z.eqb_spec l 255); [done|].
  destruct (Z.eqb_spec (255 - l) 255); [lia|].
  replace (255 - (255 - l)) with l by lia.
  rewrite (Z.mul_comm l 255), Z.div_mul by lia. lia.
Qed.

Lemma short_pixels_not_aligned (frame : ndarray) H W C :
  has_shape H W C frame -> (0 < H)%nat -> (0 < W)%nat -> (C < 3)%nat ->
  PencilSketch.dot_aligned frame = false.
Proof.
  intros [Hl Hr] HH HW HC. unfold PencilSketch.dot_aligned.
  destruct frame as [|row frame]; simpl in Hl; [lia|].
  apply Forall_cons in Hr as [[Hw Hpx] _].
  destruct row as [|px row]; simpl in Hw; [lia|].
  apply Forall_cons in Hpx as [Hpx _]. cbn [forallb].
  destruct (Nat.leb_spec 3 (length px)); [lia|done].
Qed.

Section PipelineProperties.
Import PencilSketch.

Variable GaussianBlur : ndarray -> Z * Z -> Z -> res ndarray.
Variable filter2D : ndarray -> kernel_t -> res ndarray.

(** X6: a frame of one colour whose luma is not 0 gives an all-white
    sketch of the same height and width, for every size and every such
    colour, when no sharpen value is set and the blur returns the flat
    field it is given. *)
Theorem solid_frame_gives_white self H W c0 c1 c2 alpha :
  sharpen_value self = None ->
  0 < luma c0 c1 c2 ->
  GaussianBlur (flat H W (255 - luma c0 c1 c2)) (ksize self) (blur_simga self)
    = Ok (flat H W (255 - luma c0 c1 c2)) ->
  __call__ GaussianBlur filter2D self (solid H W (c0 :: c1 :: c2 :: alpha))
    = Ok (flat H W 255).
Proof.
  intros Hsv Hpos Hblur.
  pose proof (luma_range c0 c1 c2) as Ul.
  unfold __call__, dodge_pipeline. rewrite grayscale_solid. cbn [res_bind].
  rewrite map3_flat, rsub255_uint8 by done. rewrite Hblur. cbn [res_bind].
  unfold dodge. rewrite zip3_flat, dodge_px_of_inverse by done.
  unfold sharpen. by rewrite Hsv.
Qed.

(** X8: a frame with at least one pixel and fewer than three channels
    makes the call raise ValueError, whatever the configuration and the
    cv2 routines: np.dot finds the last axis too short. *)
Theorem call_raises_value_error_on_short_pixels self frame H W C :
  has_shape H W C frame -> (0 < H)%nat -> (0 < W)%nat -> (C < 3)%nat ->
  __call__ GaussianBlur filter2D self frame = Raise ValueError.
Proof.
  intros Hs HH HW HC. unfold __call__, dodge_pipeline, grayscale.
  by rewrite (short_pixels_not_aligned frame H W C).
Qed.

(** X14: on an object built by the constructor and a frame with at least
    one pixel and three channels or more, an exception raised by the call
    is one raised by cv2.GaussianBlur or by cv2.filter2D: the numpy code
    raises nothing and the constructor always stores a kernel when a
    sharpen value is given.  The blur is taken to return a buffer of the
    shape of its source, so that the two operands of the dodge blend have
    one shape. *)
Theorem call_raises_only_what_cv2_raises sigma ks sv k self frame H W C e :
  (forall src ks s dst h w, GaussianBlur src ks s = Ok dst ->
      has_shape h w 3 src -> has_shape h w 3 dst) ->
  __init__ sigma ks sv k = Ok self ->
  has_shape H W C frame -> (0 < H)%nat -> (0 < W)%nat -> (3 <= C)%nat ->
  __call__ GaussianBlur filter2D self frame = Raise e ->
  (exists src, GaussianBlur src ks sigma = Raise e) \/
  (exists src kern, filter2D src kern = Raise e).
Proof.
  intros _ [= <-] Hs _ _ HC.
  pose proof (has_shape_dot_aligned frame H W C Hs HC) as Hal.
  unfold __call__, dodge_pipeline, grayscale. rewrite Hal.
  cbn [res_bind blur_simga ksize].
  destruct (GaussianBlur _ ks sigma) as [blur|e'] eqn:Hb; cbn [res_bind].
  2:{ intros [= <-]. left. eauto. }
  unfold sharpen. cbn [sharpen_value kernel].
  destruct sv as [v|]; [|done].
  destruct k as [custom|]; cbn [res_bind].
  + destruct (filter2D _ custom) as [flt|e'] eqn:Hf; cbn [res_bind]; [done|].
    intros [= <-]. right. eauto.
  + destruct (filter2D _ (default_kernel v)) as [flt|e'] eqn:Hf;
      cbn [res_bind]; [done|].
    intros [= <-]. right. eauto.
Qed.

End PipelineProperties.

(** ** Pixels *)

Lemma pixel_at_zip3 {A B C} (f : A -> B -> C) (a : arr A) (b : arr B) y x pa pb :
  pixel_at a y x = Some pa -> pixel_at b y x = Some pb ->
  pixel_at (zip3 f a b) y x = Some (zip_with f pa pb).
Proof.
  unfold pixel_at, zip3. rewrite lookup_zip_with.
  destruct (a !! y) as [ra|]; simpl; [|done].
  destruct (b !! y) as [rb|]; simpl; [|done].
  rewrite lookup_zip_with. by intros -> ->.
Qed.

Lemma pixel_at_bounds {A} (a : arr A) H W K y x p :
  has_shape H W K a -> pixel_at a y x = Some p -> (y < H)%nat /\ (x < W)%nat.
Proof.
  intros [Hl Hr] Hp. unfold pixel_at in Hp.
  destruct (a !! y) as [row|] eqn:Hrow; simpl in Hp; [|done].
  rewrite Forall_lookup in Hr. destruct (Hr _ _ Hrow) as [Hw _].
  apply lookup_lt_Some in Hrow, Hp. lia.
Qed.

Lemma has_shape_pixel_at {A} (a : arr A) H W K y x :
  has_shape H W K a -> (y < H)%nat -> (x < W)%nat ->
  exists p, pixel_at a y x = Some p /\ length p = K.
Proof.
  intros [Hl Hr] Hy Hx. unfold pixel_at.
  destruct (lookup_lt_is_Some_2 a y ltac:(lia)) as [row Hrow].
  rewrite Hrow. simpl. rewrite Forall_lookup in Hr.
  destruct (Hr _ _ Hrow) as [Hw Hp].
  destruct (lookup_lt_is_Some_2 row x ltac:(lia)) as [p Hpx].
  exists p. split; [done|]. rewrite Forall_lookup in Hp. by eapply Hp.
Qed.

Lemma fmap_fixed {A} (f : A -> A) (l : list A) :
  Forall (fun v => f v = v) l -> f <$> l = l.
Proof. induction 1 as [|v l Hv _ IH]; [done|]. by rewrite fmap_cons, Hv, IH. Qed.

(** Inverting twice gives back a uint8 buffer. *)
Lemma rsub255_twice (a : ndarray) :
  all_uint8 a -> map3 np.rsub255 (map3 np.rsub255 a) = a.
Proof.
  intros Ha. unfold map3. rewrite <- list_fmap_compose.
  apply fmap_fixed. eapply Forall_impl; [exact Ha|]. intros row Hrow. simpl.
  rewrite <- list_fmap_compose.
  apply fmap_fixed. eapply Forall_impl; [exact Hrow|]. intros px Hpx. simpl.
  rewrite <- list_fmap_compose.
  apply fmap_fixed. eapply Forall_impl; [exact Hpx|]. intros v Hv. simpl.
  rewrite !rsub255_uint8; [lia|done|].
  unfold is_uint8 in *. rewrite rsub255_uint8 by done. lia.
Qed.

Lemma grayscale_px_crop px :
  PencilSketch.grayscale_px (take 3 px) = PencilSketch.grayscale_px px.
Proof. by destruct px as [|c0 [|c1 [|c2 alpha]]]. Qed.

Lemma aligned_crop (px : list Z) :
  (3 <=? length (take 3 px))%nat = (3 <=? length px)%nat.
Proof. by destruct px as [|c0 [|c1 [|c2 alpha]]]. Qed.

Lemma forallb_fmap {A B} (P : B -> bool) (f : A -> B) l :
  forallb P (f <$> l) = forallb (fun a => P (f a)) l.
Proof. induction l as [|a l IH]; [done|]. rewrite fmap_cons. simpl. by rewrite IH. Qed.

Lemma forallb_ext' {A} (P Q : A -> bool) l :
  (forall a, P a = Q a) -> forallb P l = forallb Q l.
Proof. intros HPQ. induction l as [|a l IH]; simpl; [done|]. by rewrite HPQ, IH. Qed.

Lemma grayscale_crop frame :
  PencilSketch.grayscale (first_three_channels frame)
    = PencilSketch.grayscale frame.
Proof.
  unfold PencilSketch.grayscale, PencilSketch.dot_aligned, first_three_channels.
  rewrite forallb_fmap.
  rewrite (forallb_ext' _ (forallb (fun px => (3 <=? length px)%nat))).
  2:{ intros row. rewrite forallb_fmap. apply forallb_ext', aligned_crop. }
  destruct (forallb _ frame); [|done]. f_equal.
  rewrite <- list_fmap_compose. apply list_fmap_ext. intros _ row _. simpl.
  rewrite <- list_fmap_compose. apply list_fmap_ext. intros _ px _. simpl.
  apply grayscale_px_crop.
Qed.

Lemma pixel_at_uint8 (a : ndarray) y x p :
  all_uint8 a -> pixel_at a y x = Some p -> Forall is_uint8 p.
Proof.
  unfold all_uint8, pixel_at. intros Ha Hp.
  destruct (a !! y) as [row|] eqn:Hrow; simpl in Hp; [|done].
  rewrite Forall_lookup in Ha. specialize (Ha _ _ Hrow).
  rewrite Forall_lookup in Ha. by eapply Ha.
Qed.

Section PixelProperties.
Import PencilSketch.

Variable GaussianBlur : ndarray -> Z * Z -> Z -> res ndarray.
Variable filter2D : ndarray -> kernel_t -> res ndarray.

(** X7: without a sharpen value, a pure-white pixel of the frame comes
    out as 254 or 255 in each channel, never darker, whatever the blur
    computes there: the grayscale stage stores 254 for pure white and the
    dodge blend does not darken.  The blur is taken to return uint8 samples
    in a buffer of the shape of its source. *)
Theorem white_pixel_stays_almost_white self frame H W C y x alpha out :
  (forall src ks s dst h w, GaussianBlur src ks s = Ok dst ->
      has_shape h w 3 src -> has_shape h w 3 dst) ->
  (forall src ks s dst, GaussianBlur src ks s = Ok dst -> all_uint8 dst) ->
  has_shape H W C frame ->
  sharpen_value self = None ->
  pixel_at frame y x = Some (255 :: 255 :: 255 :: alpha) ->
  __call__ GaussianBlur filter2D self frame = Ok out ->
  exists d0 d1 d2,
    pixel_at out y x = Some [d0; d1; d2] /\
    254 <= d0 <= 255 /\ 254 <= d1 <= 255 /\ 254 <= d2 <= 255.
Proof.
  intros HGB HU8 Hshape Hsv Hpx Hcall. unfold __call__ in Hcall.
  apply res_bind_Ok in Hcall as (final & Hdp & Hsh).
  unfold sharpen in Hsh. rewrite Hsv in Hsh. injection Hsh as <-.
  unfold dodge_pipeline in Hdp.
  apply res_bind_Ok in Hdp as (gray & Hg & Hdp).
  apply res_bind_Ok in Hdp as (blur & Hb & [= <-]).
  assert (Hgs : has_shape H W 3 gray) by (by eapply grayscale_shape).
  assert (Hbs : has_shape H W 3 blur).
  { eapply HGB; [exact Hb|]. by apply has_shape_map3. }
  destruct (pixel_at_bounds frame H W C y x _ Hshape Hpx) as [Hy Hx].
  assert (Hgp : pixel_at gray y x = Some [254; 254; 254]).
  { unfold grayscale in Hg. destruct (dot_aligned frame); [|done].
    injection Hg as <-. rewrite pixel_at_fmap, Hpx. simpl.
    unfold grayscale_px.
    replace (luma 255 255 255) with 254 by (vm_compute; reflexivity). done. }
  destruct (has_shape_pixel_at blur H W 3 y x Hbs Hy Hx) as (pb & Hbp & Hlen).
  pose proof (pixel_at_uint8 blur y x pb (HU8 _ _ _ _ Hb) Hbp) as Hpb.
  unfold dodge. rewrite (pixel_at_zip3 dodge_px blur gray y x _ _ Hbp Hgp).
  destruct pb as [|f0 [|f1 [|f2 [|]]]]; simpl in Hlen; try lia.
  cbn [zip_with].
  apply Forall_cons in Hpb as [Hf0 Hpb].
  apply Forall_cons in Hpb as [Hf1 Hpb].
  apply Forall_cons in Hpb as [Hf2 _].
  assert (U254 : is_uint8 254) by (unfold is_uint8; lia).
  exists (dodge_px f0 254), (dodge_px f1 254), (dodge_px f2 254).
  split; [done|]. rewrite !dodge_px_int by done.
  pose proof (dodge_int_lower f0 254 Hf0 U254).
  pose proof (dodge_int_lower f1 254 Hf1 U254).
  pose proof (dodge_int_lower f2 254 Hf2 U254). lia.
Qed.

(** X10: the two inversions of the sharpen stage cancel: with a filter
    that returns the inverted image as it is, the stage returns its uint8
    input. *)
Theorem sharpen_inversions_cancel self image v k :
  sharpen_value self = Some v -> kernel self = Some k ->
  all_uint8 image ->
  filter2D (map3 np.rsub255 image) k = Ok (map3 np.rsub255 image) ->
  sharpen filter2D self image = Ok image.
Proof.
  intros Hsv Hk Hu Hf. unfold sharpen. rewrite Hsv, Hk, Hf. cbn [res_bind].
  by rewrite rsub255_twice.
Qed.

(** X11: the grayscale stage keeps the value of a gray pixel (v, v, v) or
    lowers it by one: the float64 sum of 0.299 v, 0.587 v and 0.114 v can
    fall just below v, and the cast drops the fraction. *)
Theorem grayscale_of_gray_pixel frame y x v alpha :
  dot_aligned frame = true ->
  pixel_at frame y x = Some (v :: v :: v :: alpha) ->
  is_uint8 v ->
  exists gray l,
    grayscale frame = Ok gray /\
    pixel_at gray y x = Some [l; l; l] /\ v - 1 <= l <= v.
Proof.
  intros Hal Hpx Uv. unfold grayscale. rewrite Hal.
  eexists. exists (luma v v v). split; [reflexivity|].
  split; [by rewrite pixel_at_fmap, Hpx|].
  destruct (luma_bounds v v v Uv Uv Uv) as [Hb _].
  replace (luma_exact v v v) with v in Hb; [exact Hb|].
  unfold luma_exact. replace (299 * v + 587 * v + 114 * v) with (v * 1000) by lia.
  by rewrite Z.div_mul.
Qed.

(** X12: channels after the third never influence the result: the call
    on a frame and on its first three channels agree, in the buffer
    returned and in the exception raised. *)
Theorem call_ignores_channels_after_the_third self frame :
  __call__ GaussianBlur filter2D self (first_three_channels frame)
    = __call__ GaussianBlur filter2D self frame.
Proof. unfold __call__, dodge_pipeline. by rewrite grayscale_crop. Qed.

End PixelProperties.

(** ** New buffers *)

Section NewBuffers.
Import Heap.

Lemma keeps_buffers_ret {A} (a : A) : keeps_buffers (ret a).
Proof. by intros h l. Qed.

Lemma keeps_buffers_raise {A} e : keeps_buffers (raise (A := A) e).
Proof. by intros h l. Qed.

Lemma keeps_buffers_load_u8 l : keeps_buffers (load_u8 l).
Proof. intros h l'. unfold load_u8. by destruct (h !! l) as [[a|a]|]. Qed.

Lemma keeps_buffers_load_f64 l : keeps_buffers (load_f64 l).
Proof. intros h l'. unfold load_f64. by destruct (h !! l) as [[a|a]|]. Qed.

Lemma lookup_insert_None_inv (h : heap) l l' b :
  <[l := b]> h !! l' = None -> h !! l' = None.
Proof.
  intros Hl. destruct (decide (l = l')) as [->|Hne].
  - by rewrite lookup_insert_eq in Hl.
  - by rewrite lookup_insert_ne in Hl.
Qed.

Lemma keeps_buffers_alloc b : keeps_buffers (alloc b).
Proof. intros h l. unfold alloc. simpl. apply lookup_insert_None_inv. Qed.

Lemma keeps_buffers_store l b : keeps_buffers (store l b).
Proof.
  intros h l'. unfold store. destruct (h !! l); simpl; [|done].
  apply lookup_insert_None_inv.
Qed.

Lemma keeps_buffers_bind {A B} (m : M A) (k : A -> M B) :
  keeps_buffers m -> (forall a, keeps_buffers (k a)) -> keeps_buffers (bind m k).
Proof.
  intros Hm Hk h l. unfold bind. specialize (Hm h l).
  destruct (m h) as [[a|e] h']; simpl in *; [|done].
  intros Hl. by apply Hm, (Hk a h').
Qed.

Lemma keeps_buffers_new_u8 r : keeps_buffers (new_u8 r).
Proof. destruct r; [apply keeps_buffers_alloc|apply keeps_buffers_raise]. Qed.

Lemma new_buffer_alloc b : returns_new_buffer (alloc b).
Proof. intros h l h' [= <- <-]. apply fresh_not_allocated. Qed.

Lemma new_buffer_raise e : returns_new_buffer (raise e).
Proof. by intros h l h'. Qed.

Lemma new_buffer_new_u8 r : returns_new_buffer (new_u8 r).
Proof. destruct r; [apply new_buffer_alloc|apply new_buffer_raise]. Qed.

Lemma new_buffer_bind {A} (m : M A) (k : A -> M loc) :
  keeps_buffers m -> (forall a, returns_new_buffer (k a)) ->
  returns_new_buffer (bind m k).
Proof.
  intros Hm Hk h l h'. unfold bind. specialize (Hm h l).
  destruct (m h) as [[a|e] h1]; simpl in *; [|done].
  intros Hrun. by apply Hm, (Hk a h1 l h').
Qed.

Create HintDb buffers.

#[local] Hint Resolve keeps_buffers_ret keeps_buffers_raise keeps_buffers_load_u8
  keeps_buffers_load_f64 keeps_buffers_alloc keeps_buffers_store
  keeps_buffers_new_u8 new_buffer_alloc new_buffer_raise new_buffer_new_u8
  : buffers.

Ltac buffers :=
  repeat first
    [ apply keeps_buffers_bind; [|intros ?]
    | apply new_buffer_bind; [|intros ?]
    | solve [auto with buffers] ].

Lemma keeps_buffers_dodge front back : keeps_buffers (dodge front back).
Proof. unfold dodge. buffers. Qed.

Lemma new_buffer_dodge front back : returns_new_buffer (dodge front back).
Proof. unfold dodge. buffers. Qed.

Variable GaussianBlur : ndarray -> Z * Z -> Z -> res ndarray.
Variable filter2D : ndarray -> kernel_t -> res ndarray.

Lemma keeps_buffers_grayscale frame : keeps_buffers (grayscale frame).
Proof. unfold grayscale. buffers. Qed.

Lemma keeps_buffers_invert_blur self g :
  keeps_buffers (invert_blur GaussianBlur self g).
Proof. unfold invert_blur. buffers. Qed.

(** The sharpen stage returns the buffer it was given or a new one. *)
Lemma sharpen_result self image h l h' :
  sharpen filter2D self image h = (Ok l, h') -> l = image \/ h !! l = None.
Proof.
  unfold sharpen. destruct (PencilSketch.sharpen_value self).
  - intros Hrun. right. revert h l h' Hrun.
    change (returns_new_buffer
      (img <- load_u8 image;;
       inverted <- alloc (U8 (map3 np.rsub255 img));;
       inv <- load_u8 inverted;;
       match PencilSketch.kernel self with
       | Some k =>
           filtered <- new_u8 (filter2D inv k);;
           flt <- load_u8 filtered;; alloc (U8 (map3 np.rsub255 flt))
       | None => raise cv2_error
       end)).
    buffers. destruct (PencilSketch.kernel self); buffers.
  - intros [= <- <-]. by left.
Qed.

(** X9: the buffer the pipeline returns is a new one: it did not exist
    before the call, so it is not the frame's buffer, and it holds a uint8
    array.  (The sharpen stage alone, without a sharpen value, returns the
    very buffer it was given; in the pipeline that buffer is the one the
    dodge stage has just allocated.) *)
Theorem call_returns_a_new_buffer self frame h l h' :
  __call__ GaussianBlur filter2D self frame h = (Ok l, h') ->
  h !! l = None /\ l <> frame /\ exists out, h' !! l = Some (U8 out).
Proof.
  intros Hrun.
  assert (Hnew : h !! l = None).
  { revert h l h' Hrun.
    change (returns_new_buffer (__call__ GaussianBlur filter2D self frame)).
    unfold __call__.
    apply new_buffer_bind; [apply keeps_buffers_grayscale|]. intros g.
    apply new_buffer_bind; [apply keeps_buffers_invert_blur|]. intros bl.
    intros h l h'. unfold bind.
    destruct (dodge bl g h) as [[fl|e] h1] eqn:Hd; [|done].
    intros Hs. destruct (sharpen_result self fl h1 l h' Hs) as [->|Hl].
    - by eapply new_buffer_dodge.
    - eapply keeps_buffers_dodge. by rewrite Hd. }
  destruct (holds_u8_dec h frame) as [[f Hf]|Hf].
  - split; [done|]. split; [intros ->; by rewrite Hnew in Hf|].
    destruct (call_computes GaussianBlur filter2D h self frame f Hf)
      as [_ Hv].
    rewrite Hrun in Hv. simpl in Hv.
    destruct (PencilSketch.__call__ GaussianBlur filter2D self f) as [out|e];
      [by exists out|done].
  - unfold __call__, grayscale in Hrun.
    unfold bind at 1 in Hrun. rewrite (bind_load_u8_fails _ _ _ Hf) in Hrun.
    done.
Qed.

End NewBuffers.


(** ** Instances of the further properties *)

Lemma dodge_is_the_capped_quotient_witness :
  at3 (PencilSketch.dodge (flat 1 1 55) (flat 1 1 100)) 0 0 2
    = Some (Z.min 255 (100 * 255 / (255 - 55))).
Proof.
  apply (dodge_is_the_capped_quotient (flat 1 1 55) (flat 1 1 100) 0 0 2 55 100);
    first [reflexivity | unfold is_uint8; lia].
Defined.

Lemma dodge_saturates_on_positive_back_witness :
  at3 (PencilSketch.dodge (flat 1 1 255) (flat 1 1 1)) 0 0 0 = Some 255.
Proof.
  apply (dodge_saturates_on_positive_back (flat 1 1 255) (flat 1 1 1) 0 0 0 255 1);
    first [reflexivity | unfold is_uint8; lia | left; reflexivity].
Defined.

Lemma dodge_never_darkens_witness :
  exists d, at3 (PencilSketch.dodge (flat 1 1 255) (flat 1 1 0)) 0 0 0 = Some d
            /\ 0 <= d <= 255.
Proof.
  apply (dodge_never_darkens (flat 1 1 255) (flat 1 1 0) 0 0 0 255 0);
    first [reflexivity | unfold is_uint8; lia].
Defined.

Lemma dodge_with_black_front_is_identity_witness :
  at3 (PencilSketch.dodge (flat 1 1 0) (flat 1 1 77)) 0 0 1 = Some 77.
Proof.
  apply (dodge_with_black_front_is_identity (flat 1 1 0) (flat 1 1 77) 0 0 1 77);
    first [reflexivity | unfold is_uint8; lia].
Defined.

Lemma dodge_is_monotone_witness :
  exists d d',
    at3 (PencilSketch.dodge (flat 1 1 10) (flat 1 1 100)) 0 0 0 = Some d /\
    at3 (PencilSketch.dodge (flat 1 1 200) (flat 1 1 101)) 0 0 0 = Some d' /\
    d <= d'.
Proof.
  apply (dodge_is_monotone (flat 1 1 10) (flat 1 1 100) (flat 1 1 200)
           (flat 1 1 101) 0 0 0 10 100 200 101);
    first [reflexivity | unfold is_uint8; lia | lia].
Defined.

Lemma solid_frame_gives_white_witness :
  PencilSketch.__call__ cv2.GaussianBlur cv2.filter2D
    (PencilSketch.mk 5 (3, 3) None None) (solid 2 3 [10; 200; 30; 9])
  = Ok (flat 2 3 255).
Proof.
  apply (solid_frame_gives_white cv2.GaussianBlur cv2.filter2D
           (PencilSketch.mk 5 (3, 3) None None) 2 3 10 200 30 [9]).
  - reflexivity.
  - vm_compute. reflexivity.
  - vm_compute. reflexivity.
Defined.

Lemma white_pixel_stays_almost_white_witness :
  exists d0 d1 d2,
    pixel_at sketch_2x2_dodge 1 1 = Some [d0; d1; d2] /\
    254 <= d0 <= 255 /\ 254 <= d1 <= 255 /\ 254 <= d2 <= 255.
Proof.
  apply (white_pixel_stays_almost_white cv2.GaussianBlur cv2.filter2D
           (PencilSketch.mk 5 (3, 3) None None) frame_2x2x4 2 2 4 1 1 [255]
           sketch_2x2_dodge).
  - intros src ks s dst h w. apply GaussianBlur_ref_shape.
  - intros src ks s dst. apply GaussianBlur_ref_uint8.
  - split; [reflexivity|]. repeat constructor.
  - reflexivity.
  - reflexivity.
  - vm_compute. reflexivity.
Defined.

Lemma call_raises_value_error_on_short_pixels_witness :
  PencilSketch.__call__ cv2.GaussianBlur cv2.filter2D
    (PencilSketch.mk 5 (0, 0) (Some 10)
       (Some (PencilSketch.default_kernel 10))) [[[1; 2]]]
  = Raise ValueError.
Proof.
  apply (call_raises_value_error_on_short_pixels cv2.GaussianBlur
           cv2.filter2D _ [[[1; 2]]] 1 1 2).
  - split; [reflexivity|]. repeat constructor.
  - lia.
  - lia.
  - lia.
Defined.

Lemma call_raises_only_what_cv2_raises_witness :
  (exists src, cv2.GaussianBlur src (0, 0) 0 = Raise cv2_error) \/
  (exists src kern, cv2.filter2D src kern = Raise cv2_error).
Proof.
  apply (call_raises_only_what_cv2_raises cv2.GaussianBlur cv2.filter2D
           0 (0, 0) None None (PencilSketch.mk 0 (0, 0) None None)
           (flat 1 1 7) 1 1 3 cv2_error).
  - intros src ks s dst h w. apply GaussianBlur_ref_shape.
  - reflexivity.
  - split; [reflexivity|]. repeat constructor.
  - lia.
  - lia.
  - lia.
  - vm_compute. reflexivity.
Defined.

Lemma call_returns_a_new_buffer_witness :
  ({[ 1%positive := Heap.U8 (flat 1 1 200) ]} : gmap positive Heap.buffer)
    !! 6%positive = None /\
  6%positive <> 1%positive /\
  exists out,
    snd (Heap.__call__ cv2.GaussianBlur cv2.filter2D
           (PencilSketch.mk 5 (3, 3) None None) 1%positive
           {[ 1%positive := Heap.U8 (flat 1 1 200) ]}) !! 6%positive
    = Some (Heap.U8 out).
Proof.
  apply (call_returns_a_new_buffer cv2.GaussianBlur cv2.filter2D
           (PencilSketch.mk 5 (3, 3) None None) 1%positive
           {[ 1%positive := Heap.U8 (flat 1 1 200) ]} 6%positive).
  vm_compute. reflexivity.
Defined.

Lemma sharpen_inversions_cancel_witness :
  PencilSketch.sharpen cv2.filter2D
    (PencilSketch.mk 5 (0, 0) (Some 1) (Some [[1]])) (flat 1 2 200)
  = Ok (flat 1 2 200).
Proof.
  apply (sharpen_inversions_cancel cv2.filter2D
           (PencilSketch.mk 5 (0, 0) (Some 1) (Some [[1]])) (flat 1 2 200)
           1 [[1]]).
  - reflexivity.
  - reflexivity.
  - repeat constructor; unfold is_uint8; lia.
  - vm_compute. reflexivity.
Defined.

Lemma grayscale_of_gray_pixel_witness :
  exists gray l,
    PencilSketch.grayscale [[[1; 1; 1]]] = Ok gray /\
    pixel_at gray 0 0 = Some [l; l; l] /\ 1 - 1 <= l <= 1.
Proof.
  apply (grayscale_of_gray_pixel [[[1; 1; 1]]] 0 0 1 []);
    first [reflexivity | unfold is_uint8; lia].
Defined.
